(** * The live interview page of HireHelper

    A shallow embedding of the non-presentational logic of
    [frontend/app/interview/[jobId]/[resumeId]/page.tsx], of the
    text-to-speech service it imports from [@/lib/elevenlab] and of the
    token endpoint [frontend/app/api/deepgram-token/route.ts] that it
    fetches.

    The page is a React function component.  Its [useState] cells and
    [useRef] boxes are gathered in the record [Cells]; what lives outside
    React (the protocol socket and the frames delivered on it, the calls
    made to browser capabilities, closures kept by the browser) is the
    record [World].  Every handler of the page is a computation in a small
    state-and-exception monad over both: a JavaScript exception interrupts
    a handler but keeps the state updates made before it.

    Handlers that React re-creates whenever one of the cells they read
    changes (through a complete dependency list, or because they are bound
    at each render) read the current cells.  Closures that are created once
    and kept (the [onended] handler of the screen track, [socket.onmessage],
    the timer of the voice test) carry the values they captured. *)

From Stdlib Require Import ZArith NArith List String Ascii Bool Lia.
From Stdlib Require Import DecimalString.
Import ListNotations.

Set Implicit Arguments.
Set Warnings "-register-all".

(** ** JavaScript values *)

Module JS.

(** A JavaScript string is a sequence of UTF-16 code units. *)
Definition jsstring : Type := list N.

(** The code units of an ASCII literal of the source. *)
Definition u16 (s : string) : jsstring :=
  List.map N_of_ascii (list_ascii_of_string s).

Fixpoint str_eqb (a b : jsstring) : bool :=
  match a, b with
  | [], [] => true
  | x :: a', y :: b' => N.eqb x y && str_eqb a' b'
  | _, _ => false
  end.

(** WhiteSpace and LineTerminator of ECMAScript: what
    [String.prototype.trim] strips. *)
Definition is_whitespace (c : N) : bool :=
  let c := c%N in
  (N.eqb c 9 || N.eqb c 10 || N.eqb c 11 || N.eqb c 12 || N.eqb c 13
   || N.eqb c 32 || N.eqb c 160 || N.eqb c 5760
   || (N.leb 8192 c && N.leb c 8202)
   || N.eqb c 8232 || N.eqb c 8233 || N.eqb c 8239 || N.eqb c 8287
   || N.eqb c 12288 || N.eqb c 65279)%bool.

Fixpoint trimStart (s : jsstring) : jsstring :=
  match s with
  | [] => []
  | c :: r => if is_whitespace c then trimStart r else s
  end.

Definition trimEnd (s : jsstring) : jsstring := rev (trimStart (rev s)).

Definition trim (s : jsstring) : jsstring := trimEnd (trimStart s).

Fixpoint startsWith (s p : jsstring) : bool :=
  match p, s with
  | [], _ => true
  | y :: p', x :: s' => N.eqb x y && startsWith s' p'
  | _ :: _, [] => false
  end.

(** [s.includes(p)] on strings. *)
Fixpoint includes (s p : jsstring) : bool :=
  startsWith s p ||
  match s with
  | [] => false
  | _ :: s' => includes s' p
  end.

(** A string is truthy when it is not empty. *)
Definition nonempty (s : jsstring) : bool :=
  match s with [] => false | _ => true end.

(** The space of [" "]. *)
Definition SP : N := 32%N.

(** [fs.join(" ")]. *)
Fixpoint join_sp (fs : list jsstring) : jsstring :=
  match fs with
  | [] => []
  | [f] => f
  | f :: rest => f ++ SP :: join_sp rest
  end.

(** The decimal rendering of an integer in a template literal. *)
Definition show_Z (z : Z) : jsstring := u16 (NilEmpty.string_of_int (Z.to_int z)).

(** What [JSON.parse] returns.  The counters of the protocol are
    integers, so numbers are [Z]. *)
Inductive json : Type :=
| JNull
| JBool (b : bool)
| JNum (n : Z)
| JStr (s : jsstring)
| JArr (xs : list json)
| JObj (fields : list (jsstring * json)).

(** A value read from a variable or a property: [None] is [undefined]. *)
Definition jsval : Type := option json.

Definition truthy (v : jsval) : bool :=
  match v with
  | None | Some JNull => false
  | Some (JBool b) => b
  | Some (JNum n) => negb (Z.eqb n 0)
  | Some (JStr s) => nonempty s
  | Some (JArr _) | Some (JObj _) => true
  end.

(** [a || b]. *)
Definition js_or (a b : jsval) : jsval := if truthy a then a else b.

Fixpoint assoc (k : jsstring) (fields : list (jsstring * json)) : jsval :=
  match fields with
  | [] => None
  | (k', v) :: rest => if str_eqb k k' then Some v else assoc k rest
  end.

(** [v === "lit"]. *)
Definition is_str (v : jsval) (lit : jsstring) : bool :=
  match v with
  | Some (JStr s) => str_eqb s lit
  | _ => false
  end.

(** [JSON.stringify] of an object literal is kept as the object. *)
Definition obj (fields : list (string * json)) : json :=
  JObj (List.map (fun kv => (u16 (fst kv), snd kv)) fields).

Definition str (s : string) : json := JStr (u16 s).

End JS.
Export JS.

(** ** The cells of the page *)

Inductive Permission : Type := granted | denied | prompt.

Inductive SetupStep : Type := permissions | voice_selection | screen_share | ready.

Record InterviewStatus : Type := {
  question_count : jsval;
  max_questions : jsval;
  is_complete : bool
}.

Record ElevenLabsVoice : Type := {
  voice_id : jsstring;
  name : jsstring;
  category : jsstring;
  description : option jsstring
}.

Record MediaStream : Type := {
  stream_id : nat;
  video_tracks : nat
}.

(** The page opens one protocol socket; the cell [ws] holds it or [null]. *)
Inductive WebSocket : Type := protocol_socket.

Inductive ReadyState : Type := CONNECTING | OPEN | CLOSING | CLOSED.

Record MediaRecorder : Type := { recorder_mimeType : option jsstring }.

Inductive DeepgramConnection : Type := live_connection.

Record SetupCells : Type := {
  setupComplete : bool;
  cameraPermission : Permission;
  micPermission : Permission;
  screenShareActive : bool;
  setupStep : SetupStep
}.

Record MediaCells : Type := {
  videoStream : option MediaStream;
  audioStream : option MediaStream;
  screenStream : option MediaStream;
  screenShareRef : option MediaStream
}.

Record ConnCells : Type := {
  jobId : jsstring;
  resumeId : jsstring;
  ws : option WebSocket;
  isConnected : bool;
  error : option json;
  status : InterviewStatus
}.

Record VoiceCells : Type := {
  isListening : bool;
  isSpeaking : bool;
  currentTranscript : jsstring;
  aiResponse : json;
  bufferRef : jsstring;
  recorderRef : option MediaRecorder;
  dgConnRef : option DeepgramConnection;
  selectedVoice : option ElevenLabsVoice
}.

Record ProctorCells : Type := {
  tabSwitchCount : Z;
  proctorWarning : option jsstring;
  interviewEndedByProctor : bool;
  fullscreenExitCount : Z;
  fullscreenWarning : option jsstring;
  isFullscreen : bool;
  showFullscreenPrompt : bool
}.

Record TimerCells : Type := {
  timerSec : Z;
  timerActive : bool
}.

Record Cells : Type := {
  setup : SetupCells;
  media : MediaCells;
  conn : ConnCells;
  voice : VoiceCells;
  proctor : ProctorCells;
  timer : TimerCells
}.

(** ** What lives outside React *)

(** Calls made to the browser and to the providers, in the order made. *)
Inductive Call : Type :=
| RequestFullscreen
| AttachPreview (v : MediaStream)
| FetchToken
| CreateClient
| GetRecordingStream
| NewMediaRecorder (mime : option jsstring)
| ListenLive
| RecorderStop
| DgFinish
| TextToSpeech (text voice : jsstring)
| PlayAudio
| SynthCancel
| SynthSpeak (text : jsstring).

(** What the [onended] closure of the screen track captured. *)
Record EndedClosure : Type := {
  ended_setupComplete : bool;
  ended_ws : option WebSocket
}.

(** What [socket.onmessage] captured when the socket effect ran. *)
Record MessageClosure : Type := {
  message_status : InterviewStatus;
  message_selectedVoice : option ElevenLabsVoice
}.

(** What the timer of a voice test captured at the click. *)
Record TestClosure : Type := {
  originalVoice : option ElevenLabsVoice;
  test_selectedVoice : option ElevenLabsVoice
}.

(** [reentry_timers] counts the pending three-second timers that will ask
    for fullscreen again; [test_timers] holds the pending timers of voice
    tests, oldest first. *)
Record World : Type := {
  readyState : ReadyState;
  wire : list json;
  calls : list Call;
  onended : option EndedClosure;
  onmessage_closure : option MessageClosure;
  test_timers : list TestClosure;
  reentry_timers : nat
}.

Record Session : Type := {
  cells : Cells;
  world : World
}.

(** ** Handlers as computations *)

Record Exn : Type := {
  instanceof_Error : bool;
  exn_name : jsstring;
  message : jsstring
}.

Inductive Outcome (A : Type) : Type :=
| Normal (a : A)
| Thrown (e : Exn).
Arguments Normal {A} a.
Arguments Thrown {A} e.

Definition M (A : Type) : Type := Session -> Outcome A * Session.

Definition ret {A} (a : A) : M A := fun s => (Normal a, s).

Definition bind {A B} (c : M A) (k : A -> M B) : M B :=
  fun s =>
    match c s with
    | (Normal a, s') => k a s'
    | (Thrown e, s') => (Thrown e, s')
    end.

Definition throw {A} (e : Exn) : M A := fun s => (Thrown e, s).

(** [try { c } catch (e) { h e }]: the updates of [c] before the throw stay. *)
Definition try_catch {A} (c : M A) (h : Exn -> M A) : M A :=
  fun s =>
    match c s with
    | (Normal a, s') => (Normal a, s')
    | (Thrown e, s') => h e s'
    end.

Definition gets {A} (f : Session -> A) : M A := fun s => (Normal (f s), s).

Definition modify (f : Session -> Session) : M unit := fun s => (Normal tt, f s).

Definition when (b : bool) (c : M unit) : M unit := if b then c else ret tt.

Declare Scope js_scope.
Delimit Scope js_scope with js.
Notation "x <- c ;; k" := (bind c (fun x => k))
  (at level 61, c at next level, right associativity) : js_scope.
Notation "c ;; k" := (bind c (fun _ => k))
  (at level 61, right associativity) : js_scope.
Open Scope js_scope.

(** The state a handler leaves, whether it returned or threw. *)
Definition exec {A} (c : M A) (s : Session) : Session := snd (c s).

(** Whether the handler returned. *)
Definition returns {A} (c : M A) (s : Session) : bool :=
  match fst (c s) with Normal _ => true | Thrown _ => false end.

(** An [Error] built by [new Error(msg)] and a [TypeError] of the runtime. *)
Definition Error (msg : jsstring) : Exn :=
  {| instanceof_Error := true; exn_name := u16 "Error"; message := msg |}.

Definition TypeError : Exn :=
  {| instanceof_Error := true; exn_name := u16 "TypeError"; message := [] |}.

Definition InvalidStateError : Exn :=
  {| instanceof_Error := true; exn_name := u16 "InvalidStateError"; message := [] |}.

(** ** Writing the cells

    One setter per [useState] cell, under the name the page gives it, and
    one writer per [useRef] box. *)

Definition on_cells (f : Cells -> Cells) : M unit :=
  modify (fun s => {| cells := f (cells s); world := world s |}).

Definition on_world (f : World -> World) : M unit :=
  modify (fun s => {| cells := cells s; world := f (world s) |}).

Definition with_setup (f : SetupCells -> SetupCells) (c : Cells) : Cells :=
  {| setup := f (setup c); media := media c; conn := conn c;
     voice := voice c; proctor := proctor c; timer := timer c  |}.

Definition with_media (f : MediaCells -> MediaCells) (c : Cells) : Cells :=
  {| setup := setup c; media := f (media c); conn := conn c;
     voice := voice c; proctor := proctor c; timer := timer c  |}.

Definition with_conn (f : ConnCells -> ConnCells) (c : Cells) : Cells :=
  {| setup := setup c; media := media c; conn := f (conn c);
     voice := voice c; proctor := proctor c; timer := timer c  |}.

Definition with_voice (f : VoiceCells -> VoiceCells) (c : Cells) : Cells :=
  {| setup := setup c; media := media c; conn := conn c;
     voice := f (voice c); proctor := proctor c; timer := timer c  |}.

Definition with_proctor (f : ProctorCells -> ProctorCells) (c : Cells) : Cells :=
  {| setup := setup c; media := media c; conn := conn c;
     voice := voice c; proctor := f (proctor c); timer := timer c  |}.

Definition with_timer (f : TimerCells -> TimerCells) (c : Cells) : Cells :=
  {| setup := setup c; media := media c; conn := conn c;
     voice := voice c; proctor := proctor c; timer := f (timer c)  |}.

Definition setSetupComplete (v : bool) : M unit :=
  on_cells (with_setup (fun g =>
    {| setupComplete := v; cameraPermission := cameraPermission g;
       micPermission := micPermission g;
       screenShareActive := screenShareActive g;
       setupStep := setupStep g |})).

Definition setCameraPermission (v : Permission) : M unit :=
  on_cells (with_setup (fun g =>
    {| setupComplete := setupComplete g; cameraPermission := v;
       micPermission := micPermission g;
       screenShareActive := screenShareActive g;
       setupStep := setupStep g |})).

Definition setMicPermission (v : Permission) : M unit :=
  on_cells (with_setup (fun g =>
    {| setupComplete := setupComplete g;
       cameraPermission := cameraPermission g; micPermission := v;
       screenShareActive := screenShareActive g;
       setupStep := setupStep g |})).

Definition setScreenShareActive (v : bool) : M unit :=
  on_cells (with_setup (fun g =>
    {| setupComplete := setupComplete g;
       cameraPermission := cameraPermission g;
       micPermission := micPermission g; screenShareActive := v;
       setupStep := setupStep g |})).

Definition setSetupStep (v : SetupStep) : M unit :=
  on_cells (with_setup (fun g =>
    {| setupComplete := setupComplete g;
       cameraPermission := cameraPermission g;
       micPermission := micPermission g;
       screenShareActive := screenShareActive g; setupStep := v |})).

Definition setVideoStream (v : option MediaStream) : M unit :=
  on_cells (with_media (fun g =>
    {| videoStream := v; audioStream := audioStream g;
       screenStream := screenStream g;
       screenShareRef := screenShareRef g |})).

Definition setAudioStream (v : option MediaStream) : M unit :=
  on_cells (with_media (fun g =>
    {| videoStream := videoStream g; audioStream := v;
       screenStream := screenStream g;
       screenShareRef := screenShareRef g |})).

Definition setScreenStream (v : option MediaStream) : M unit :=
  on_cells (with_media (fun g =>
    {| videoStream := videoStream g; audioStream := audioStream g;
       screenStream := v; screenShareRef := screenShareRef g |})).

Definition write_screenShareRef (v : option MediaStream) : M unit :=
  on_cells (with_media (fun g =>
    {| videoStream := videoStream g; audioStream := audioStream g;
       screenStream := screenStream g; screenShareRef := v |})).

Definition setJobId (v : jsstring) : M unit :=
  on_cells (with_conn (fun g =>
    {| jobId := v; resumeId := resumeId g; ws := ws g;
       isConnected := isConnected g; error := error g;
       status := status g |})).

Definition setResumeId (v : jsstring) : M unit :=
  on_cells (with_conn (fun g =>
    {| jobId := jobId g; resumeId := v; ws := ws g;
       isConnected := isConnected g; error := error g;
       status := status g |})).

Definition setWs (v : option WebSocket) : M unit :=
  on_cells (with_conn (fun g =>
    {| jobId := jobId g; resumeId := resumeId g; ws := v;
       isConnected := isConnected g; error := error g;
       status := status g |})).

Definition setIsConnected (v : bool) : M unit :=
  on_cells (with_conn (fun g =>
    {| jobId := jobId g; resumeId := resumeId g; ws := ws g;
       isConnected := v; error := error g; status := status g |})).

Definition setError (v : option json) : M unit :=
  on_cells (with_conn (fun g =>
    {| jobId := jobId g; resumeId := resumeId g; ws := ws g;
       isConnected := isConnected g; error := v; status := status g |})).

Definition setStatus (v : InterviewStatus) : M unit :=
  on_cells (with_conn (fun g =>
    {| jobId := jobId g; resumeId := resumeId g; ws := ws g;
       isConnected := isConnected g; error := error g; status := v |})).

Definition setIsListening (v : bool) : M unit :=
  on_cells (with_voice (fun g =>
    {| isListening := v; isSpeaking := isSpeaking g;
       currentTranscript := currentTranscript g; aiResponse := aiResponse g;
       bufferRef := bufferRef g; recorderRef := recorderRef g;
       dgConnRef := dgConnRef g; selectedVoice := selectedVoice g |})).

Definition setIsSpeaking (v : bool) : M unit :=
  on_cells (with_voice (fun g =>
    {| isListening := isListening g; isSpeaking := v;
       currentTranscript := currentTranscript g; aiResponse := aiResponse g;
       bufferRef := bufferRef g; recorderRef := recorderRef g;
       dgConnRef := dgConnRef g; selectedVoice := selectedVoice g |})).

Definition setCurrentTranscript (v : jsstring) : M unit :=
  on_cells (with_voice (fun g =>
    {| isListening := isListening g; isSpeaking := isSpeaking g;
       currentTranscript := v; aiResponse := aiResponse g;
       bufferRef := bufferRef g; recorderRef := recorderRef g;
       dgConnRef := dgConnRef g; selectedVoice := selectedVoice g |})).

Definition setAiResponse (v : json) : M unit :=
  on_cells (with_voice (fun g =>
    {| isListening := isListening g; isSpeaking := isSpeaking g;
       currentTranscript := currentTranscript g; aiResponse := v;
       bufferRef := bufferRef g; recorderRef := recorderRef g;
       dgConnRef := dgConnRef g; selectedVoice := selectedVoice g |})).

Definition write_bufferRef (v : jsstring) : M unit :=
  on_cells (with_voice (fun g =>
    {| isListening := isListening g; isSpeaking := isSpeaking g;
       currentTranscript := currentTranscript g; aiResponse := aiResponse g;
       bufferRef := v; recorderRef := recorderRef g;
       dgConnRef := dgConnRef g; selectedVoice := selectedVoice g |})).

Definition write_recorderRef (v : option MediaRecorder) : M unit :=
  on_cells (with_voice (fun g =>
    {| isListening := isListening g; isSpeaking := isSpeaking g;
       currentTranscript := currentTranscript g; aiResponse := aiResponse g;
       bufferRef := bufferRef g; recorderRef := v; dgConnRef := dgConnRef g;
       selectedVoice := selectedVoice g |})).

Definition write_dgConnRef (v : option DeepgramConnection) : M unit :=
  on_cells (with_voice (fun g =>
    {| isListening := isListening g; isSpeaking := isSpeaking g;
       currentTranscript := currentTranscript g; aiResponse := aiResponse g;
       bufferRef := bufferRef g; recorderRef := recorderRef g;
       dgConnRef := v; selectedVoice := selectedVoice g |})).

Definition setSelectedVoice (v : option ElevenLabsVoice) : M unit :=
  on_cells (with_voice (fun g =>
    {| isListening := isListening g; isSpeaking := isSpeaking g;
       currentTranscript := currentTranscript g; aiResponse := aiResponse g;
       bufferRef := bufferRef g; recorderRef := recorderRef g;
       dgConnRef := dgConnRef g; selectedVoice := v |})).

Definition setTabSwitchCount (v : Z) : M unit :=
  on_cells (with_proctor (fun g =>
    {| tabSwitchCount := v; proctorWarning := proctorWarning g;
       interviewEndedByProctor := interviewEndedByProctor g;
       fullscreenExitCount := fullscreenExitCount g;
       fullscreenWarning := fullscreenWarning g;
       isFullscreen := isFullscreen g;
       showFullscreenPrompt := showFullscreenPrompt g |})).

Definition setProctorWarning (v : option jsstring) : M unit :=
  on_cells (with_proctor (fun g =>
    {| tabSwitchCount := tabSwitchCount g; proctorWarning := v;
       interviewEndedByProctor := interviewEndedByProctor g;
       fullscreenExitCount := fullscreenExitCount g;
       fullscreenWarning := fullscreenWarning g;
       isFullscreen := isFullscreen g;
       showFullscreenPrompt := showFullscreenPrompt g |})).

Definition setInterviewEndedByProctor (v : bool) : M unit :=
  on_cells (with_proctor (fun g =>
    {| tabSwitchCount := tabSwitchCount g;
       proctorWarning := proctorWarning g; interviewEndedByProctor := v;
       fullscreenExitCount := fullscreenExitCount g;
       fullscreenWarning := fullscreenWarning g;
       isFullscreen := isFullscreen g;
       showFullscreenPrompt := showFullscreenPrompt g |})).

Definition setFullscreenExitCount (v : Z) : M unit :=
  on_cells (with_proctor (fun g =>
    {| tabSwitchCount := tabSwitchCount g;
       proctorWarning := proctorWarning g;
       interviewEndedByProctor := interviewEndedByProctor g;
       fullscreenExitCount := v; fullscreenWarning := fullscreenWarning g;
       isFullscreen := isFullscreen g;
       showFullscreenPrompt := showFullscreenPrompt g |})).

Definition setFullscreenWarning (v : option jsstring) : M unit :=
  on_cells (with_proctor (fun g =>
    {| tabSwitchCount := tabSwitchCount g;
       proctorWarning := proctorWarning g;
       interviewEndedByProctor := interviewEndedByProctor g;
       fullscreenExitCount := fullscreenExitCount g; fullscreenWarning := v;
       isFullscreen := isFullscreen g;
       showFullscreenPrompt := showFullscreenPrompt g |})).

Definition setIsFullscreen (v : bool) : M unit :=
  on_cells (with_proctor (fun g =>
    {| tabSwitchCount := tabSwitchCount g;
       proctorWarning := proctorWarning g;
       interviewEndedByProctor := interviewEndedByProctor g;
       fullscreenExitCount := fullscreenExitCount g;
       fullscreenWarning := fullscreenWarning g; isFullscreen := v;
       showFullscreenPrompt := showFullscreenPrompt g |})).

Definition setShowFullscreenPrompt (v : bool) : M unit :=
  on_cells (with_proctor (fun g =>
    {| tabSwitchCount := tabSwitchCount g;
       proctorWarning := proctorWarning g;
       interviewEndedByProctor := interviewEndedByProctor g;
       fullscreenExitCount := fullscreenExitCount g;
       fullscreenWarning := fullscreenWarning g;
       isFullscreen := isFullscreen g; showFullscreenPrompt := v |})).

Definition setTimerSec (v : Z) : M unit :=
  on_cells (with_timer (fun g =>
    {| timerSec := v; timerActive := timerActive g |})).

Definition setTimerActive (v : bool) : M unit :=
  on_cells (with_timer (fun g =>
    {| timerSec := timerSec g; timerActive := v |})).

Definition set_readyState (r : ReadyState) : M unit :=
  on_world (fun w =>
    {| readyState := r; wire := wire w; calls := calls w;
       onended := onended w; onmessage_closure := onmessage_closure w;
       test_timers := test_timers w; reentry_timers := reentry_timers w |}).

Definition deliver (frame : json) : M unit :=
  on_world (fun w =>
    {| readyState := readyState w; wire := wire w ++ [frame]; calls := calls w;
       onended := onended w; onmessage_closure := onmessage_closure w;
       test_timers := test_timers w; reentry_timers := reentry_timers w |}).

Definition call (c : Call) : M unit :=
  on_world (fun w =>
    {| readyState := readyState w; wire := wire w; calls := calls w ++ [c];
       onended := onended w; onmessage_closure := onmessage_closure w;
       test_timers := test_timers w; reentry_timers := reentry_timers w |}).

Definition set_onended (h : option EndedClosure) : M unit :=
  on_world (fun w =>
    {| readyState := readyState w; wire := wire w; calls := calls w;
       onended := h; onmessage_closure := onmessage_closure w;
       test_timers := test_timers w; reentry_timers := reentry_timers w |}).

Definition set_onmessage (h : option MessageClosure) : M unit :=
  on_world (fun w =>
    {| readyState := readyState w; wire := wire w; calls := calls w;
       onended := onended w; onmessage_closure := h;
       test_timers := test_timers w; reentry_timers := reentry_timers w |}).

Definition set_test_timers (l : list TestClosure) : M unit :=
  on_world (fun w =>
    {| readyState := readyState w; wire := wire w; calls := calls w;
       onended := onended w; onmessage_closure := onmessage_closure w;
       test_timers := l; reentry_timers := reentry_timers w |}).

Definition set_reentry_timers (n : nat) : M unit :=
  on_world (fun w =>
    {| readyState := readyState w; wire := wire w; calls := calls w;
       onended := onended w; onmessage_closure := onmessage_closure w;
       test_timers := test_timers w; reentry_timers := n |}).

(** Reading the cells of the current render. *)
Definition look {A} (f : Cells -> A) : M A := gets (fun s => f (cells s)).

(** ** The protocol socket *)

(** [socket.send(frame)]: an open socket takes the frame; a socket that is
    still connecting throws; a closing or closed socket drops the frame. *)
Definition send (sock : WebSocket) (frame : json) : M unit :=
  r <- gets (fun s => readyState (world s)) ;;
  match r with
  | OPEN => deliver frame
  | CONNECTING => throw InvalidStateError
  | CLOSING | CLOSED => ret tt
  end.

(** [ws && ws.readyState === WebSocket.OPEN] *)
Definition ws_is_open (w : option WebSocket) : M bool :=
  match w with
  | None => ret false
  | Some _ => r <- gets (fun s => readyState (world s)) ;;
              ret (match r with OPEN => true | _ => false end)
  end.

(** [ws?.send(frame)] *)
Definition send_opt (w : option WebSocket) (frame : json) : M unit :=
  match w with
  | None => ret tt
  | Some sock => send sock frame
  end.

(** [ws?.close()] *)
Definition close_opt (w : option WebSocket) : M unit :=
  match w with
  | None => ret tt
  | Some _ =>
      r <- gets (fun s => readyState (world s)) ;;
      match r with
      | CONNECTING | OPEN => set_readyState CLOSING
      | CLOSING | CLOSED => ret tt
      end
  end.

(** ** The first render *)

Definition TIMER_SEC : Z := 600.

(** [elevenLabsService.getInterviewVoice()] *)
Definition getInterviewVoice : ElevenLabsVoice :=
  {| voice_id := u16 "21m00Tcm4TlvDq8ikWAM";
     name := u16 "Rachel";
     category := u16 "Professional";
     description := Some (u16 "Professional female voice - perfect for interviews") |}.

Definition initial_cells : Cells :=
  {| setup := {| setupComplete := false; cameraPermission := prompt;
                 micPermission := prompt; screenShareActive := false;
                 setupStep := permissions |};
     media := {| videoStream := None; audioStream := None;
                 screenStream := None; screenShareRef := None |};
     conn := {| jobId := []; resumeId := []; ws := None; isConnected := false;
                error := None;
                status := {| question_count := Some (JNum 0);
                             max_questions := Some (JNum 8);
                             is_complete := false |} |};
     voice := {| isListening := false; isSpeaking := false;
                 currentTranscript := []; aiResponse := JStr [];
                 bufferRef := []; recorderRef := None; dgConnRef := None;
                 selectedVoice := None |};
     proctor := {| tabSwitchCount := 0; proctorWarning := None;
                   interviewEndedByProctor := false; fullscreenExitCount := 0;
                   fullscreenWarning := None; isFullscreen := false;
                   showFullscreenPrompt := false |};
     timer := {| timerSec := TIMER_SEC; timerActive := false |} |}.

Definition initial : Session :=
  {| cells := initial_cells;
     world := {| readyState := CONNECTING; wire := []; calls := [];
                 onended := None; onmessage_closure := None;
                 test_timers := []; reentry_timers := 0 |} |}.

(** The effect that resolves [params]. *)
Definition init_params (job resume : jsstring) : M unit :=
  setJobId job ;; setResumeId resume.

(** The effect that loads the voices: on either path the selection becomes
    the interview voice. *)
Definition loadVoices : M unit := setSelectedVoice (Some getInterviewVoice).

(** ** Setup *)

(** [await p]: a rejected promise throws at the await. *)
Definition await {A} (p : Exn + A) : M A :=
  match p with
  | inl e => throw e
  | inr a => ret a
  end.

(** What the browser answers to [requestPermissions]. *)
Record PermissionsEnv : Type := {
  camera : Exn + MediaStream;
  microphone : Exn + MediaStream;
  videoRef_current : bool
}.

Definition permissions_required : json :=
  str "Camera and microphone access are required for the interview. Please enable permissions and refresh.".

Definition requestPermissions (env : PermissionsEnv) : M unit :=
  try_catch
    (v <- await (camera env) ;;
     setVideoStream (Some v) ;;
     setCameraPermission granted ;;
     when (videoRef_current env) (call (AttachPreview v)) ;;
     a <- await (microphone env) ;;
     setAudioStream (Some a) ;;
     setMicPermission granted ;;
     setSetupStep screen_share)
    (fun err =>
       when (instanceof_Error err && str_eqb (exn_name err) (u16 "NotAllowedError"))
         (setCameraPermission denied ;;
          setMicPermission denied ;;
          setError (Some permissions_required))).

Definition screen_share_required : json :=
  str "Screen sharing is required for the interview. Please allow screen sharing to continue.".

Definition screen_share_frame (action : string) : json :=
  obj [("type", str "screen-share"); ("action", str action)]%string.

(** [startScreenShare]: the handler put on the first video track closes
    over [setupComplete] and [ws] of the render in which the button was
    clicked. *)
Definition startScreenShare (display : Exn + MediaStream) : M unit :=
  seen_setupComplete <- look (fun c => setupComplete (setup c)) ;;
  seen_ws <- look (fun c => ws (conn c)) ;;
  try_catch
    (s <- await display ;;
     setScreenStream (Some s) ;;
     write_screenShareRef (Some s) ;;
     setScreenShareActive true ;;
     setSetupStep ready ;;
     match video_tracks s with
     | O => throw TypeError
     | S _ => set_onended (Some {| ended_setupComplete := seen_setupComplete;
                                   ended_ws := seen_ws |})
     end)
    (fun _ => setError (Some screen_share_required)).

(** The closure itself, over the values it captured. *)
Definition onended_body (c : EndedClosure) : M unit :=
  setScreenShareActive false ;;
  match ended_setupComplete c, ended_ws c with
  | true, Some sock => send sock (screen_share_frame "ended")
  | _, _ => ret tt
  end.

(** The screen track ends: the browser runs the [onended] closure, once. *)
Definition screen_track_ended : M unit :=
  h <- gets (fun s => onended (world s)) ;;
  match h with
  | None => ret tt
  | Some c => set_onended None ;; onended_body c
  end.

(** What the browser answers to a fullscreen request. *)
Record FullscreenEnv : Type := {
  requestFullscreen_defined : bool;
  requestFullscreen_result : option Exn
}.

Definition fullscreen_required : json :=
  str "Fullscreen mode is required for the interview. Please allow fullscreen access.".

Definition enterFullscreen (env : FullscreenEnv) : M unit :=
  try_catch
    (when (requestFullscreen_defined env)
       (call RequestFullscreen ;;
        match requestFullscreen_result env with
        | Some e => throw e
        | None => ret tt
        end))
    (fun _ => setError (Some fullscreen_required)).

Definition is_granted (p : Permission) : bool :=
  match p with granted => true | _ => false end.

Definition completeSetup (env : FullscreenEnv) : M unit :=
  cam <- look (fun c => cameraPermission (setup c)) ;;
  mic <- look (fun c => micPermission (setup c)) ;;
  share <- look (fun c => screenShareActive (setup c)) ;;
  when (is_granted cam && is_granted mic && share)
    (enterFullscreen env ;;
     setSetupComplete true ;;
     setTimerActive true).

(** ** Text to speech *)

(** What the providers answer to one [speakText]. *)
Inductive TtsFetch : Type :=
| FetchRejected
| ResponseNotOk
| BodyRejected
| AudioBytes.

Record SpeakEnv : Type := {
  apiKey : jsstring;
  tts_fetch : TtsFetch;
  playAudio_result : option Exn;
  speechSynthesis_defined : bool
}.

(** [elevenLabsService.isAvailable()] *)
Definition isAvailable (env : SpeakEnv) : bool := nonempty (apiKey env).

(** [elevenLabsService.textToSpeech(text, voiceId)]: the audio, or [null]. *)
Definition textToSpeech (env : SpeakEnv) (text voiceId : jsstring) : M bool :=
  if negb (nonempty (apiKey env)) then ret false
  else
    call (TextToSpeech text voiceId) ;;
    match tts_fetch env with
    | AudioBytes => ret true
    | FetchRejected | ResponseNotOk | BodyRejected => ret false
    end.

(** [elevenLabsService.playAudio(audioBuffer)] *)
Definition playAudio (env : SpeakEnv) : M unit :=
  call PlayAudio ;;
  match playAudio_result env with
  | Some e => throw e
  | None => ret tt
  end.

(** [speakText(text)] as the closure that captured [selectedVoice] runs it.
    The local synthesis reports the end of the utterance later, through
    [utterance_settled]. *)
Definition speakText (selected : option ElevenLabsVoice) (env : SpeakEnv)
    (text : json) : M unit :=
  match text with
  | JStr t =>
      if negb (nonempty (trim t)) then ret tt
      else
        setIsSpeaking true ;;
        try_catch
          (played <-
             match isAvailable env, selected with
             | true, Some v =>
                 audioBuffer <- textToSpeech env t (voice_id v) ;;
                 if (audioBuffer : bool)
                 then playAudio env ;; setIsSpeaking false ;; ret true
                 else ret false
             | _, _ => ret false
             end ;;
           if (played : bool) then ret tt
           else if speechSynthesis_defined env
                then call SynthCancel ;; call (SynthSpeak t)
                else setIsSpeaking false)
          (fun _ =>
             setIsSpeaking false ;;
             when (speechSynthesis_defined env)
               (call SynthCancel ;; call (SynthSpeak t)))
  | _ => throw TypeError
  end.

(** [utterance.onend] and [utterance.onerror] *)
Definition utterance_settled : M unit := setIsSpeaking false.

(** A call of an async function that nobody awaits: a rejection is lost. *)
Definition detached (c : M unit) : M unit := try_catch c (fun _ => ret tt).

(** ** The protocol socket: its effect and its handlers *)

(** The effect on [setupComplete, jobId, resumeId]. *)
Definition connect : M unit :=
  ready_ <- look (fun c => setupComplete (setup c)) ;;
  job <- look (fun c => jobId (conn c)) ;;
  resume <- look (fun c => resumeId (conn c)) ;;
  when (ready_ && nonempty job && nonempty resume)
    (st <- look (fun c => status (conn c)) ;;
     sel <- look (fun c => selectedVoice (voice c)) ;;
     set_readyState CONNECTING ;;
     set_onmessage (Some {| message_status := st; message_selectedVoice := sel |}) ;;
     setWs (Some protocol_socket)).

Definition onopen : M unit :=
  set_readyState OPEN ;;
  setIsConnected true ;;
  setError None ;;
  send protocol_socket (screen_share_frame "started").

(** [data.key] *)
Definition field (data : json) (key : string) : M jsval :=
  match data with
  | JNull => throw TypeError
  | JObj fields => ret (assoc (u16 key) fields)
  | JBool _ | JNum _ | JStr _ | JArr _ => ret None
  end.

(** [type?.includes('screen_share')], as a truth value. *)
Definition type_includes_screen_share (type : jsval) : M bool :=
  match type with
  | None | Some JNull => ret false
  | Some (JStr s) => ret (includes s (u16 "screen_share"))
  | Some (JArr xs) =>
      ret (existsb (fun x => is_str (Some x) (u16 "screen_share")) xs)
  | Some (JBool _) | Some (JNum _) | Some (JObj _) => throw TypeError
  end.

Definition invalid_response : json := str "Invalid response from server".

Section Messages.

(** [a >= b] of the runtime on values read from a frame. *)
Variable js_ge : jsval -> jsval -> bool.

(** [socket.onmessage]; [parsed] is what [JSON.parse(ev.data)] gives,
    [None] when it throws. *)
Definition onmessage (cl : MessageClosure) (env : SpeakEnv)
    (parsed : option json) : M unit :=
  try_catch
    (data <- match parsed with
             | None => throw (Error (u16 "SyntaxError"))
             | Some d => ret d
             end ;;
     err <- field data "error" ;;
     if truthy err then setError err
     else
       text <- field data "text" ;;
       question_count_ <- field data "question_count" ;;
       max_questions_ <- field data "max_questions" ;;
       type <- field data "type" ;;
       if is_str type (u16 "screen_share_request")
       then send protocol_socket (screen_share_frame "started")
       else if is_str type (u16 "screen_share_confirmed")
       then ret tt
       else
         let max := js_or max_questions_ (max_questions (message_status cl)) in
         (if is_str type (u16 "interview_complete")
          then setStatus {| question_count := max; max_questions := max;
                            is_complete := true |}
          else setStatus {| question_count := question_count_;
                            max_questions := max;
                            is_complete := js_ge question_count_ max |}) ;;
         if truthy text
         then
           skip <- type_includes_screen_share type ;;
           match text with
           | Some t =>
               when (negb skip)
                 (setAiResponse t ;;
                  detached (speakText (message_selectedVoice cl) env t))
           | None => ret tt
           end
         else ret tt)
    (fun _ => setError (Some invalid_response)).

End Messages.

Definition connection_lost : json := str "Connection lost. Please refresh.".

Definition onclose (code : Z) : M unit :=
  set_readyState CLOSED ;;
  setIsConnected false ;;
  when (negb (Z.eqb code 1000)) (setError (Some connection_lost)).

Definition onerror : M unit :=
  setError (Some (str "Connection error. Please try again.")).

(** ** Speech capture *)

Definition is_some {A} (o : option A) : bool :=
  match o with Some _ => true | None => false end.

Definition cleanupVoice : M unit :=
  r <- look (fun c => recorderRef (voice c)) ;;
  when (is_some r) (call RecorderStop) ;;
  d <- look (fun c => dgConnRef (voice c)) ;;
  when (is_some d) (call DgFinish) ;;
  write_recorderRef None ;;
  write_dgConnRef None ;;
  setIsListening false ;;
  setCurrentTranscript [] ;;
  write_bufferRef [].

(** The body of the token endpoint: [{ token }] or [{ error }]. *)
Record TokenBody : Type := {
  token_error : option jsstring;
  token : option jsstring
}.

Record TokenResponse : Type := {
  response_ok : bool;
  response_status : Z;
  response_json : Exn + TokenBody
}.

(** What the browser and the providers answer to one [startListening]. *)
Record ListenEnv : Type := {
  token_fetch : Exn + TokenResponse;
  recording_stream : Exn + MediaStream;
  isTypeSupported : jsstring -> bool;
  new_MediaRecorder : option jsstring -> option Exn;
  listen_live : option Exn
}.

Definition supportedTypes : list jsstring :=
  [ u16 "audio/webm;codecs=opus"; u16 "audio/webm";
    u16 "audio/ogg;codecs=opus"; u16 "audio/mp4"; u16 "audio/wav" ].

(** The loop over [supportedTypes]: the first supported one, or [''] . *)
Fixpoint first_supported (supported : jsstring -> bool) (types : list jsstring)
  : jsstring :=
  match types with
  | [] => []
  | t :: rest => if supported t then t else first_supported supported rest
  end.

Definition truthy_string (o : option jsstring) : bool :=
  match o with Some s => nonempty s | None => false end.

Definition raise_if (e : option Exn) : M unit :=
  match e with Some x => throw x | None => ret tt end.

Definition voice_setup_message (error_ : Exn) : jsstring :=
  u16 "Could not start voice recognition. " ++
  (if instanceof_Error error_
   then
     if includes (message error_) (u16 "No supported audio format")
     then u16 "Your browser doesn't support the required audio formats."
     else if includes (message error_) (u16 "MediaRecorder")
     then u16 "Audio recording is not supported in your browser."
     else message error_
   else []).

Definition startListening (env : ListenEnv) : M unit :=
  mic <- look (fun c => audioStream (media c)) ;;
  w <- look (fun c => ws (conn c)) ;;
  open <- ws_is_open w ;;
  if negb (is_some mic) || negb open then ret tt
  else
    cleanupVoice ;;
    setIsListening true ;;
    setCurrentTranscript [] ;;
    write_bufferRef [] ;;
    try_catch
      (call FetchToken ;;
       tokenRes <- await (token_fetch env) ;;
       (if response_ok tokenRes then ret tt
        else throw (Error (u16 "HTTP " ++ show_Z (response_status tokenRes)))) ;;
       tokenJson <- await (response_json tokenRes) ;;
       (if truthy_string (token_error tokenJson) || negb (truthy_string (token tokenJson))
        then throw (Error (match token_error tokenJson with
                           | Some ((_ :: _) as e) => e
                           | _ => u16 "No token received"
                           end))
        else ret tt) ;;
       call CreateClient ;;
       call GetRecordingStream ;;
       _ <- await (recording_stream env) ;;
       let mimeType := first_supported (isTypeSupported env) supportedTypes in
       let options := if nonempty mimeType then Some mimeType else None in
       call (NewMediaRecorder options) ;;
       raise_if (new_MediaRecorder env options) ;;
       write_recorderRef (Some {| recorder_mimeType := options |}) ;;
       call ListenLive ;;
       raise_if (listen_live env) ;;
       write_dgConnRef (Some live_connection))
      (fun error_ =>
         setError (Some (JStr (voice_setup_message error_))) ;;
         setIsListening false).

(** One transcript event of the provider: the transcript of the first
    alternative, if there is one, and whether the result is final. *)
Record DeepgramTranscriptData : Type := {
  first_transcript : option jsstring;
  is_final : bool
}.

(** The handler of [LiveTranscriptionEvents.Transcript]. *)
Definition on_transcript (data : DeepgramTranscriptData) : M unit :=
  match option_map trim (first_transcript data) with
  | Some ((_ :: _) as txt) =>
      buf <- look (fun c => bufferRef (voice c)) ;;
      if is_final data
      then
        let buf' := buf ++ (if nonempty buf then [SP] else []) ++ txt in
        write_bufferRef buf' ;;
        setCurrentTranscript buf'
      else setCurrentTranscript (buf ++ [SP] ++ txt)
  | _ => ret tt
  end.

Definition no_speech : json := str "No speech detected. Please try speaking again.".

Definition answer_frame (text : jsstring) : json :=
  obj [("answer", JStr text)]%string.

Definition stopListening : M unit :=
  buf <- look (fun c => bufferRef (voice c)) ;;
  let finalTranscript := trim buf in
  cleanupVoice ;;
  w <- look (fun c => ws (conn c)) ;;
  open <- ws_is_open w ;;
  if nonempty finalTranscript && open
  then
    send_opt w (answer_frame finalTranscript) ;;
    setCurrentTranscript [] ;;
    write_bufferRef []
  else
    when (negb (nonempty finalTranscript)) (setError (Some no_speech)).

(** ** Integrity monitoring *)

(** The warning sign that opens the warnings: U+26A0 U+FE0F. *)
Definition warning_sign : jsstring := [9888%N; 65039%N].

Definition end_interview : json := obj [("answer", str "end interview")]%string.

Definition fullscreen_violation_frame (count : Z) (now : jsstring) : json :=
  obj [("type", str "fullscreen-violation"); ("count", JNum count);
       ("timestamp", JStr now)]%string.

Definition end_interview_fullscreen (count : Z) : json :=
  obj [("answer", str "end interview"); ("reason", str "fullscreen_violations");
       ("violation_count", JNum count)]%string.

Definition tab_switch_frame (count : Z) : json :=
  obj [("type", str "tab-switch"); ("count", JNum count)]%string.

(** [if (ws && ws.readyState === WebSocket.OPEN) ws.send(frame)] *)
Definition send_if_open (w : option WebSocket) (frame : json) : M unit :=
  open <- ws_is_open w ;;
  when open (send_opt w frame).

Definition fullscreen_warning : jsstring :=
  u16 " Warning: Fullscreen mode is required. Please return to fullscreen. 1 chance left!".

(** [handleFullscreenChange]; [in_fullscreen] is [checkFullscreenStatus()]
    and [now] is [new Date().toISOString()]. *)
Definition handleFullscreenChange (in_fullscreen : bool) (now : jsstring) : M unit :=
  active <- look (fun c => setupComplete (setup c)) ;;
  ended <- look (fun c => interviewEndedByProctor (proctor c)) ;;
  count <- look (fun c => fullscreenExitCount (proctor c)) ;;
  w <- look (fun c => ws (conn c)) ;;
  setIsFullscreen in_fullscreen ;;
  when (negb in_fullscreen && active && negb ended)
    (let newCount := (count + 1)%Z in
     setFullscreenExitCount newCount ;;
     send_if_open w (fullscreen_violation_frame newCount now) ;;
     if Z.eqb newCount 1
     then
       setFullscreenWarning (Some (warning_sign ++ fullscreen_warning)) ;;
       setShowFullscreenPrompt true ;;
       pending <- gets (fun s => reentry_timers (world s)) ;;
       set_reentry_timers (S pending)
     else
       when (Z.leb 2 newCount)
         (setFullscreenWarning
            (Some (u16 "Interview ended: Multiple fullscreen violations detected.")) ;;
          setInterviewEndedByProctor true ;;
          send_if_open w (end_interview_fullscreen newCount))).

(** [onVisibilityChange]; [hidden] is [document.hidden]. *)
Definition onVisibilityChange (hidden : bool) : M unit :=
  active <- look (fun c => setupComplete (setup c)) ;;
  count <- look (fun c => tabSwitchCount (proctor c)) ;;
  w <- look (fun c => ws (conn c)) ;;
  when (hidden && active)
    (let newCount := (count + 1)%Z in
     setTabSwitchCount newCount ;;
     send_if_open w (tab_switch_frame newCount) ;;
     when (Z.eqb newCount 1)
       (setProctorWarning
          (Some (warning_sign ++ u16 " Warning: You left the tab. 2 chances left!"))) ;;
     when (Z.eqb newCount 2)
       (setProctorWarning
          (Some (warning_sign ++ u16 " Last warning: Next tab switch will end your interview!"))) ;;
     when (Z.leb 3 newCount)
       (send_opt w end_interview ;;
        setError (Some (str "Interview ended: Too many tab switches.")) ;;
        setInterviewEndedByProctor true)).

(** ** The session timer *)

(** The guard that opens the timer effect. *)
Definition timer_running (c : Cells) : bool :=
  timerActive (timer c) && negb (is_complete (status (conn c)))
  && negb (interviewEndedByProctor (proctor c)).

(** The body of the timer effect, run after a render that changed one of
    [timerSec, timerActive, status.is_complete, interviewEndedByProctor,
    ws].  When it neither returns at the guard nor expires, it leaves a
    timeout of one second pending. *)
Definition timer_effect : M unit :=
  running <- look timer_running ;;
  sec <- look (fun c => timerSec (timer c)) ;;
  w <- look (fun c => ws (conn c)) ;;
  when running
    (when (Z.leb sec 0)
       (setTimerActive false ;;
        send_opt w end_interview ;;
        setError (Some (str "Interview ended: Time limit reached.")) ;;
        setInterviewEndedByProctor true)).

(** A timeout is pending exactly when the last run of the effect passed
    both tests. *)
Definition timer_pending (c : Cells) : bool :=
  timer_running c && negb (Z.leb (timerSec (timer c)) 0).

(** The pending timeout fires: [setTimerSec(s => s - 1)]. *)
Definition timer_timeout : M unit :=
  pending <- look timer_pending ;;
  sec <- look (fun c => timerSec (timer c)) ;;
  when pending (setTimerSec (sec - 1)%Z).

(** One second of the timer: the timeout, then the effect of the render it
    causes. *)
Definition second : M unit := timer_timeout ;; timer_effect.

(** ** The two buttons of the session *)

(** The end button; [confirmed] is the answer to [confirm(...)]. *)
Definition end_click (confirmed : bool) : M unit :=
  w <- look (fun c => ws (conn c)) ;;
  when confirmed (send_opt w end_interview).

(** The "Return to Fullscreen" button of the prompt. *)
Definition return_to_fullscreen (env : FullscreenEnv) : M unit :=
  enterFullscreen env ;;
  setShowFullscreenPrompt false ;;
  setFullscreenWarning None.

(** ** Choosing and testing a voice *)

Definition test_phrase : json := str "Hello! This is a test of my voice. How do I sound?".

(** The click on the test button of voice [w]: the timer closes over
    [selectedVoice] of this render, as [originalVoice] and inside
    [speakText]. *)
Definition testVoice_click (w : ElevenLabsVoice) : M unit :=
  sel <- look (fun c => selectedVoice (voice c)) ;;
  setSelectedVoice (Some w) ;;
  pending <- gets (fun s => test_timers (world s)) ;;
  set_test_timers (pending ++ [{| originalVoice := sel; test_selectedVoice := sel |}]).

(** The body of one test timer. *)
Definition testVoice_body (cl : TestClosure) (env : SpeakEnv) : M unit :=
  speakText (test_selectedVoice cl) env test_phrase ;;
  setSelectedVoice (originalVoice cl).

(** The oldest pending test timer fires. *)
Definition testVoice_timer (env : SpeakEnv) : M unit :=
  pending <- gets (fun s => test_timers (world s)) ;;
  match pending with
  | [] => ret tt
  | cl :: rest => set_test_timers rest ;; testVoice_body cl env
  end.

(** ** The page as a transition system

    An event is what the user, the browser or a provider does next.  A
    button can be clicked only in a render that shows it enabled; a socket
    event needs the socket.  [SocketClosing] is the start of the closing
    handshake: the socket stops being open before any handler of the page
    hears of it.  After the handler, the effects whose inputs the handler
    changed run again.  The redirect that unmounts the page five seconds
    after the session is over is left out: a run is a run of the mounted
    page. *)

Inductive Event : Type :=
| ParamsResolved (job resume : jsstring)
| VoicesLoaded
| ClickAllow (env : PermissionsEnv)
| ClickContinueToVoice
| ClickVoice (v : ElevenLabsVoice)
| ClickTestVoice (v : ElevenLabsVoice)
| TestTimerFires (env : SpeakEnv)
| ClickContinueToScreenShare
| ClickStartScreenShare (display : Exn + MediaStream)
| ClickStartInterview (env : FullscreenEnv)
| ScreenTrackEnded
| SocketOpen
| SocketMessage (env : SpeakEnv) (parsed : option json)
| SocketClosing
| SocketClose (code : Z)
| SocketError
| UtteranceSettled
| ClickMic (env : ListenEnv)
| Transcript (data : DeepgramTranscriptData)
| FullscreenChange (in_fullscreen : bool) (now : jsstring)
| ReenterFullscreen (env : FullscreenEnv)
| ClickReturnToFullscreen (env : FullscreenEnv)
| VisibilityChange (hidden : bool)
| Second
| ClickEnd (confirmed : bool).

Definition both_granted (c : Cells) : bool :=
  is_granted (cameraPermission (setup c)) && is_granted (micPermission (setup c)).

Definition at_step (c : Cells) (st : SetupStep) : bool :=
  negb (setupComplete (setup c)) &&
  match setupStep (setup c), st with
  | permissions, permissions | voice_selection, voice_selection
  | screen_share, screen_share | ready, ready => true
  | _, _ => false
  end.

(** [status.is_complete || interviewEndedByProctor] *)
Definition over (c : Cells) : bool :=
  is_complete (status (conn c)) || interviewEndedByProctor (proctor c).

Definition readyState_eqb (a b : ReadyState) : bool :=
  match a, b with
  | CONNECTING, CONNECTING | OPEN, OPEN | CLOSING, CLOSING | CLOSED, CLOSED => true
  | _, _ => false
  end.

(** Whether the event can happen in this state. *)
Definition enabled (e : Event) (s : Session) : bool :=
  let c := cells s in
  let in_session := setupComplete (setup c) in
  let socket r := is_some (ws (conn c)) && readyState_eqb (readyState (world s)) r in
  match e with
  | ParamsResolved _ _ => negb (nonempty (jobId (conn c)))
  | VoicesLoaded => true
  | ClickAllow _ => at_step c permissions && negb (both_granted c)
  | ClickContinueToVoice => at_step c permissions && both_granted c
  | ClickVoice _ | ClickTestVoice _ => at_step c voice_selection
  | TestTimerFires _ => negb (Nat.eqb (List.length (test_timers (world s))) 0)
  | ClickContinueToScreenShare =>
      at_step c voice_selection && is_some (selectedVoice (voice c))
  | ClickStartScreenShare _ =>
      at_step c screen_share && negb (screenShareActive (setup c))
  | ClickStartInterview _ => at_step c ready
  | ScreenTrackEnded => is_some (onended (world s))
  | SocketOpen => socket CONNECTING
  | SocketMessage _ _ => socket OPEN
  | SocketClosing => socket CONNECTING || socket OPEN
  | SocketClose _ => socket CONNECTING || socket OPEN || socket CLOSING
  | SocketError => is_some (ws (conn c))
  | UtteranceSettled => isSpeaking (voice c)
  | ClickMic _ =>
      in_session && isConnected (conn c) && negb (isSpeaking (voice c))
      && negb (over c)
  | Transcript _ => is_some (dgConnRef (voice c))
  | FullscreenChange _ _ | VisibilityChange _ => true
  | ReenterFullscreen _ => negb (Nat.eqb (reentry_timers (world s)) 0)
  | ClickReturnToFullscreen _ =>
      in_session && showFullscreenPrompt (proctor c)
      && Z.eqb (fullscreenExitCount (proctor c)) 1
      && negb (interviewEndedByProctor (proctor c))
  | Second => timer_pending c
  | ClickEnd _ => in_session && isConnected (conn c) && negb (over c)
  end.

(** ** The streams effect

    The effect on [videoStream, audioStream, screenStream, ws] has no body
    but a cleanup.  React runs the cleanup of an effect, with the values
    of the render in which the effect last ran, each time one of its
    inputs has changed, and not only when the page is unmounted.  Stopping
    a track does not fire its [ended] event: once the tracks of the screen
    stream are stopped, the [onended] closure cannot run any more.  The
    tracks of the camera and of the microphone, [speechSynthesis.cancel()]
    and [exitFullscreen()] touch no cell; the [fullscreenchange] event that
    follows an exit is an event of its own. *)
Definition release (seen : Cells) : M unit :=
  cleanupVoice ;;
  when (is_some (screenStream (media seen))) (set_onended None) ;;
  close_opt (ws (conn seen)).

Definition same_stream (a b : option MediaStream) : bool :=
  match a, b with
  | None, None => true
  | Some x, Some y =>
      Nat.eqb (stream_id x) (stream_id y) && Nat.eqb (video_tracks x) (video_tracks y)
  | _, _ => false
  end.

(** The inputs of the streams effect are those of the render [seen]. *)
Definition same_inputs (seen shown : Cells) : bool :=
  same_stream (videoStream (media seen)) (videoStream (media shown))
  && same_stream (audioStream (media seen)) (audioStream (media shown))
  && same_stream (screenStream (media seen)) (screenStream (media shown))
  && Bool.eqb (is_some (ws (conn seen))) (is_some (ws (conn shown))).

(** [setupComplete && jobId && resumeId]: the socket effect goes on. *)
Definition connectable (c : Cells) : bool :=
  setupComplete (setup c) && nonempty (jobId (conn c)) && nonempty (resumeId (conn c)).

(** A new render: the cleanup runs if an input of its effect changed. *)
Definition rerender (seen : Cells) : M unit :=
  shown <- look (fun c => c) ;;
  when (negb (same_inputs seen shown)) (release seen).

Section Page.

Variable js_ge : jsval -> jsval -> bool.

Definition handle (e : Event) : M unit :=
  match e with
  | ParamsResolved job resume => init_params job resume
  | VoicesLoaded => loadVoices
  | ClickAllow env => requestPermissions env
  | ClickContinueToVoice => setSetupStep voice_selection
  | ClickVoice v => setSelectedVoice (Some v)
  | ClickTestVoice v => testVoice_click v
  | TestTimerFires env => testVoice_timer env
  | ClickContinueToScreenShare => setSetupStep screen_share
  | ClickStartScreenShare display => startScreenShare display
  | ClickStartInterview env => completeSetup env
  | ScreenTrackEnded => screen_track_ended
  | SocketOpen => onopen
  | SocketMessage env parsed =>
      cl <- gets (fun s => onmessage_closure (world s)) ;;
      match cl with
      | Some cl => onmessage js_ge cl env parsed
      | None => ret tt
      end
  | SocketClosing => set_readyState CLOSING
  | SocketClose code => onclose code
  | SocketError => onerror
  | UtteranceSettled => utterance_settled
  | ClickMic env =>
      listening <- look (fun c => isListening (voice c)) ;;
      if listening then stopListening else startListening env
  | Transcript data => on_transcript data
  | FullscreenChange in_fullscreen now => handleFullscreenChange in_fullscreen now
  | ReenterFullscreen env =>
      pending <- gets (fun s => reentry_timers (world s)) ;;
      set_reentry_timers (Nat.pred pending) ;;
      enterFullscreen env
  | ClickReturnToFullscreen env => return_to_fullscreen env
  | VisibilityChange hidden => onVisibilityChange hidden
  | Second => timer_timeout
  | ClickEnd confirmed => end_click confirmed
  end.

(** The effects that run after a handler: the cleanup of the streams
    effect when the handler changed one of its inputs; the socket effect
    when the session has just become connectable, and then the cleanup
    again, as the socket effect has set [ws]; the timer effect. *)
Definition commit (before : Cells) : M unit :=
  rerender before ;;
  shown <- look (fun c => c) ;;
  when (connectable shown && negb (connectable before))
    (connect ;; rerender shown) ;;
  timer_effect.

(** One event: ignored when it cannot happen; an exception that leaves the
    handler ends the handler and nothing else.  An exception that leaves
    an effect of the commit ends the commit; React then unmounts the page,
    which [step] does not follow: the state it gives is the one that the
    cells were left in (see [unmounts]). *)
Definition step (s : Session) (e : Event) : Session :=
  if enabled e s
  then exec (commit (cells s)) (exec (handle e) s)
  else s.

(** The event makes React unmount the page: an exception leaves an effect
    of its commit. *)
Definition unmounts (s : Session) (e : Event) : bool :=
  enabled e s && negb (returns (commit (cells s)) (exec (handle e) s)).

Definition run (events : list Event) (s : Session) : Session :=
  fold_left step events s.

End Page.

(** ** Observations used in the statements *)

(** The frames sent so far on the protocol socket. *)
Definition sent (s : Session) : list json := wire (world s).

(** The content of the [error] cell, which both screens render in the
    error paragraph (see [error_banner]). *)
Definition shown_error (s : Session) : option json := error (conn (cells s)).

(** A value rendered as the child of an element: React renders a string
    and a number as text, a boolean and [null] as nothing and an array
    child by child; on an object it throws ("Objects are not valid as a
    React child"), and the page is unmounted.  [None] is that throw. *)
Fixpoint react_child (v : json) : option jsstring :=
  match v with
  | JNull | JBool _ => Some []
  | JNum n => Some (show_Z n)
  | JStr s => Some s
  | JArr xs =>
      (fix children (xs : list json) : option jsstring :=
         match xs with
         | [] => Some []
         | x :: rest =>
             match react_child x, children rest with
             | Some a, Some b => Some (a ++ b)
             | _, _ => None
             end
         end) xs
  | JObj _ => None
  end.


(** What the user gets to see of an error. *)
Inductive Banner : Type :=
| NoBanner
| Shows (text : jsstring)
| RenderThrows.

(** [<p>{error}</p>] *)
Definition banner_of (e : json) : Banner :=
  match react_child e with
  | Some text => Shows text
  | None => RenderThrows
  end.

(** [{error && <p>{error}</p>}], on the setup screen and on the session
    screen. *)
Definition error_banner (s : Session) : Banner :=
  match shown_error s with
  | Some e => if truthy (Some e) then banner_of e else NoBanner
  | None => NoBanner
  end.


(** [ws && ws.readyState === WebSocket.OPEN] as an observation. *)
Definition socket_open (s : Session) : bool :=
  is_some (ws (conn (cells s))) && readyState_eqb (readyState (world s)) OPEN.

(** A socket that exists and is still connecting: [send] throws on it. *)
Definition socket_connecting (s : Session) : bool :=
  is_some (ws (conn (cells s))) && readyState_eqb (readyState (world s)) CONNECTING.

(** An end-of-session message is a frame whose [answer] is ["end interview"]. *)
Definition is_end_of_session (frame : json) : bool :=
  match frame with
  | JObj fields => is_str (assoc (u16 "answer") fields) (u16 "end interview")
  | _ => false
  end.

Definition count_end (frames : list json) : nat :=
  List.length (filter is_end_of_session frames).

(** The fragment that one transcript event appends to the buffer, if any:
    the trimmed text of a final result that has some. *)
Definition final_fragment (d : DeepgramTranscriptData) : option jsstring :=
  if is_final d
  then match option_map trim (first_transcript d) with
       | Some ((_ :: _) as txt) => Some txt
       | _ => None
       end
  else None.

(** The fragments appended by a sequence of transcript events. *)
Definition appended (evs : list DeepgramTranscriptData) : list jsstring :=
  flat_map (fun d => match final_fragment d with
                     | Some txt => [txt]
                     | None => []
                     end) evs.

(** The transcript events of one activation, in arrival order. *)
Definition hear (evs : list DeepgramTranscriptData) (s : Session) : Session :=
  fold_left (fun s d => exec (on_transcript d) s) evs s.

(** [k] seconds of the timer. *)
Definition seconds (k : nat) (s : Session) : Session :=
  Nat.iter k (exec second) s.

(** The phrase of a voice test has been spoken: the local synthesis, when
    it was used, has reported the end of the utterance. *)
Definition spoken (s : Session) : Session :=
  if isSpeaking (voice (cells s)) then exec utterance_settled s else s.

(** The closure that a click on a test button creates in state [s]. *)
Definition test_closure (s : Session) : TestClosure :=
  {| originalVoice := selectedVoice (voice (cells s));
     test_selectedVoice := selectedVoice (voice (cells s)) |}.

(** Whether a fullscreen request made in [env] puts the page in fullscreen. *)
Definition fullscreen_entered (env : FullscreenEnv) : bool :=
  requestFullscreen_defined env && negb (is_some (requestFullscreen_result env)).


(** ** A session used in the examples *)

(** [>=] on the values of the frames of the examples: two numbers, or
    [undefined] on one side, which compares false.  (On other operands
    JavaScript coerces; the examples pass none.) *)
Definition ge_num (a b : jsval) : bool :=
  match a, b with
  | Some (JNum x), Some (JNum y) => Z.leb y x
  | _, _ => false
  end.

Definition camera_stream : MediaStream := {| stream_id := 1; video_tracks := 1 |}.
Definition mic_stream : MediaStream := {| stream_id := 2; video_tracks := 0 |}.
Definition screen_stream : MediaStream := {| stream_id := 3; video_tracks := 1 |}.

Definition both_allowed : PermissionsEnv :=
  {| camera := inr camera_stream; microphone := inr mic_stream;
     videoRef_current := false |}.

Definition fullscreen_allowed : FullscreenEnv :=
  {| requestFullscreen_defined := true; requestFullscreen_result := None |}.

Definition fullscreen_refused : FullscreenEnv :=
  {| requestFullscreen_defined := true; requestFullscreen_result := Some TypeError |}.

(** The candidate allows camera and microphone and shares the screen. *)
Definition to_ready : list Event :=
  [ ParamsResolved (u16 "job-1") (u16 "resume-1"); VoicesLoaded;
    ClickAllow both_allowed; ClickStartScreenShare (inr screen_stream) ].

(** ... then starts the interview, and the socket opens. *)
Definition to_session : list Event :=
  to_ready ++ [ ClickStartInterview fullscreen_allowed; SocketOpen ].

Definition at_ready : Session := run ge_num to_ready initial.

(** The candidate has granted camera and microphone, and looks at the
    button that starts the screen share. *)
Definition at_screen_share : Session :=
  run ge_num [ ParamsResolved (u16 "job-1") (u16 "resume-1"); VoicesLoaded;
               ClickAllow both_allowed ] initial.

Definition in_session : Session := run ge_num to_session initial.

Definition token_granted : TokenResponse :=
  {| response_ok := true; response_status := 200;
     response_json := inr {| token_error := None; token := Some (u16 "tok") |} |}.

(** A browser whose recorder supports the first candidate format. *)
Definition listen_ok : ListenEnv :=
  {| token_fetch := inr token_granted;
     recording_stream := inr {| stream_id := 4; video_tracks := 0 |};
     isTypeSupported := fun t => str_eqb t (u16 "audio/webm;codecs=opus");
     new_MediaRecorder := fun _ => None;
     listen_live := None |}.


Definition final_ (text : string) : DeepgramTranscriptData :=
  {| first_transcript := Some (u16 text); is_final := true |}.

Definition interim (text : string) : DeepgramTranscriptData :=
  {| first_transcript := Some (u16 text); is_final := false |}.

Definition no_provider : SpeakEnv :=
  {| apiKey := []; tts_fetch := FetchRejected; playAudio_result := None;
     speechSynthesis_defined := true |}.

Definition provider_plays : SpeakEnv :=
  {| apiKey := u16 "key"; tts_fetch := AudioBytes; playAudio_result := None;
     speechSynthesis_defined := true |}.

Definition domi : ElevenLabsVoice :=
  {| voice_id := u16 "AZnzlk1XvdvUeBnXmlld"; name := u16 "Domi";
     category := u16 "Professional";
     description := Some (u16 "Professional male voice - clear and authoritative") |}.

Definition mystery_frame : json :=
  obj [("type", str "mystery"); ("text", str "hello")]%string.

(** A frame whose [error] is an object. *)
Definition object_error_frame : json :=
  obj [("error", obj [("code", JNum 1)])]%string.

(** The browser refuses a capability: the promise is rejected with a
    [NotAllowedError]. *)
Definition refusal : Exn :=
  {| instanceof_Error := true; exn_name := u16 "NotAllowedError";
     message := u16 "Permission denied" |}.

Definition camera_refused : PermissionsEnv :=
  {| camera := inl refusal; microphone := inr mic_stream;
     videoRef_current := false |}.

(** The interview has been started, and the socket is still connecting. *)
Definition still_connecting : Session :=
  run ge_num (to_ready ++ [ClickStartInterview fullscreen_allowed]) initial.

(** ** Notions used in the proofs and in the amended statements *)

(** A string that starts with a character that [trim] keeps. *)
Definition starts_solid (f : jsstring) : bool :=
  match f with
  | c :: _ => negb (is_whitespace c)
  | [] => false
  end.

(** [buf + (buf ? " " : "") + txt] *)
Definition append_fragment (buf txt : jsstring) : jsstring :=
  buf ++ (if nonempty buf then [SP] else []) ++ txt.

(** The computation [c] leaves the observation [f] as it was. *)
Definition preserves {A B} (f : Session -> B) (c : M A) : Prop :=
  forall s, f (snd (c s)) = f s.

(** The computation [c] keeps the property [P] of the state. *)
Definition maintains {A} (P : Session -> Prop) (c : M A) : Prop :=
  forall s, P s -> P (snd (c s)).

(** The computation [c] returns: no exception leaves it. *)
Definition total {A} (c : M A) : Prop :=
  forall s, exists a, fst (c s) = Normal a.

(** The three preconditions that [completeSetup] tests. *)
Definition setup_preconditions (s : Session) : bool :=
  is_granted (cameraPermission (setup (cells s)))
  && is_granted (micPermission (setup (cells s)))
  && screenShareActive (setup (cells s)).

(** The progress that [socket.onmessage] records for a frame that it takes
    for a question. *)
Definition question_status (js_ge : jsval -> jsval -> bool) (cl : MessageClosure)
    (fields : list (jsstring * json)) : InterviewStatus :=
  let max := js_or (assoc (u16 "max_questions") fields)
                   (max_questions (message_status cl)) in
  {| question_count := assoc (u16 "question_count") fields;
     max_questions := max;
     is_complete := js_ge (assoc (u16 "question_count") fields) max |}.





(** The token endpoint answered with a token. *)
Definition token_received (env : ListenEnv) : bool :=
  match token_fetch env with
  | inr res =>
      response_ok res &&
      match response_json res with
      | inr body => negb (truthy_string (token_error body)) && truthy_string (token body)
      | inl _ => false
      end
  | inl _ => false
  end.



(** A frame that reports the end of the screen share. *)
Definition is_share_ended (frame : json) : bool :=
  match frame with
  | JObj fields => is_str (assoc (u16 "action") fields) (u16 "ended")
  | _ => false
  end.

(** The state in which the timer shows [sec]. *)
Definition at_second (sec : Z) (s : Session) : Session := exec (setTimerSec sec) s.

(** The state that the expiry branch of the timer effect leaves. *)
Definition expired (s : Session) : Session := exec timer_effect (at_second 0 s).

(** What a run of the page keeps true.  The setup cells, and the steps
    that the setup can be at; the timer as the setup sees it; the closure
    on the screen track and the frames that report the end of the share. *)
Definition setup_of (s : Session) : SetupCells := setup (cells s).

Definition touches_setup (e : Event) : bool :=
  match e with
  | ClickAllow _ | ClickContinueToVoice | ClickContinueToScreenShare
  | ClickStartScreenShare _ | ClickStartInterview _ | ScreenTrackEnded => true
  | _ => false
  end.

Definition setup_reachable (g : SetupCells) : bool :=
  match setupStep g with
  | voice_selection => false
  | permissions => negb (is_granted (micPermission g))
  | screen_share | ready => true
  end.

Definition timer_view (s : Session) : bool * TimerCells :=
  (setupComplete (setup (cells s)), timer (cells s)).

Definition timer_waits (v : bool * TimerCells) : bool :=
  fst v || (Z.eqb (timerSec (snd v)) TIMER_SEC && negb (timerActive (snd v))).

Definition touches_timer (e : Event) : bool :=
  match e with
  | ClickStartInterview _ | Second => true
  | _ => false
  end.

Definition reports_share_end (s : Session) : bool := existsb is_share_ended (sent s).

Definition closure_is_stale (s : Session) : bool :=
  match onended (world s) with
  | Some c => negb (ended_setupComplete c)
  | None => true
  end.

Definition share_end_unreported (s : Session) : bool :=
  closure_is_stale s && negb (reports_share_end s).

(** What decides whether the screen track can still end: is there a
    socket, is there a closure on a live track, is there a screen stream,
    is the session connectable. *)
Definition share_view (s : Session) : bool * bool * bool * bool :=
  (is_some (ws (conn (cells s))), is_some (onended (world s)),
   is_some (screenStream (media (cells s))), connectable (cells s)).

(** With a socket, the track is stopped; without one, a live track
    belongs to the screen stream held in the cell. *)
Definition track_stopped (v : bool * bool * bool * bool) : bool :=
  let '(socket, live, stream, connected) := v in
  if socket then negb live && connected else implb live stream.

Definition touches_share (e : Event) : bool :=
  match e with
  | ParamsResolved _ _ | ClickStartScreenShare _ | ClickStartInterview _
  | ScreenTrackEnded => true
  | _ => false
  end.

(** ** The clock that the page shows *)

Definition ZERO : N := 48%N.

Definition COLON : N := 58%N.

(** [s.padStart(target, fill)] for a filler of one character. *)
Definition padStart (target : nat) (fill : N) (s : jsstring) : jsstring :=
  repeat fill (target - List.length s) ++ s.

(** [timerDisplay]: the minutes, [Math.floor(timerSec / 60)], and the
    seconds, [timerSec % 60], each padded to two digits. *)
Definition timerDisplay (timerSec : Z) : jsstring :=
  padStart 2 ZERO (show_Z (timerSec / 60))
  ++ COLON :: padStart 2 ZERO (show_Z (Z.rem timerSec 60)).

(** Reading a clock of the form MM:SS back. *)
Definition digit (c : N) : option Z :=
  if (N.leb 48 c && N.leb c 57)%bool then Some (Z.of_N c - 48)%Z else None.

Definition read_display (d : jsstring) : option Z :=
  match d with
  | [m1; m0; c; s1; s0] =>
      match digit m1, digit m0, digit s1, digit s0 with
      | Some a, Some b, Some x, Some y =>
          if N.eqb c COLON then Some ((10 * a + b) * 60 + (10 * x + y))%Z else None
      | _, _, _, _ => None
      end
  | _ => None
  end.

(** ** The token endpoint: [GET] of [app/api/deepgram-token/route.ts] *)

(** What [dg.auth.grantToken()] resolves to: [error] is [null] or an error
    with its message; [result] is [null] or a grant, whose [access_token]
    may be missing. *)
Record GrantAnswer : Type := {
  grant_error : option jsstring;
  grant_result : option (option jsstring)
}.

(** The environment of the endpoint. *)
Record TokenEnv : Type := {
  DEEPGRAM_API_KEY : option jsstring;
  createClient_throws : option Exn;
  grantToken : Exn + GrantAnswer
}.

(** [NextResponse.json(body, { status })] *)
Record RouteResponse : Type := {
  route_status : Z;
  route_body : list (jsstring * json)
}.

Definition respond (status : Z) (body : list (string * json)) : RouteResponse :=
  {| route_status := status;
     route_body := List.map (fun kv => (u16 (fst kv), snd kv)) body |}.

(** The body of the [try]: a response, or the exception that leaves it. *)
Definition GET_try (env : TokenEnv) : Exn + RouteResponse :=
  if negb (truthy_string (DEEPGRAM_API_KEY env))
  then inr (respond 500 [("error", str "Deepgram API key not configured")]%string)
  else
    match createClient_throws env with
    | Some e => inl e
    | None =>
        match grantToken env with
        | inl e => inl e
        | inr answer =>
            match grant_error answer with
            | Some msg => inr (respond 500 [("error", JStr msg)]%string)
            | None =>
                match grant_result answer with
                | None => inl TypeError
                | Some None => inr (respond 200 [])
                | Some (Some access_token) =>
                    inr (respond 200 [("token", JStr access_token)]%string)
                end
            end
        end
    end.

Definition GET (env : TokenEnv) : RouteResponse :=
  match GET_try env with
  | inr response => response
  | inl _ => respond 500 [("error", str "Failed to generate Deepgram token")]%string
  end.

(** What [fetch] hands to [startListening] for a response of the
    endpoint: [ok] is a status from 200 to 299, [json()] is the body. *)
Definition string_field (key : string) (body : list (jsstring * json))
  : option jsstring :=
  match assoc (u16 key) body with
  | Some (JStr s) => Some s
  | _ => None
  end.

Definition fetched (r : RouteResponse) : TokenResponse :=
  {| response_ok := Z.leb 200 (route_status r) && Z.leb (route_status r) 299;
     response_status := route_status r;
     response_json := inr {| token_error := string_field "error" (route_body r);
                             token := string_field "token" (route_body r) |} |}.

(** The endpoint grants a token that the page can use. *)
Definition grants (env : TokenEnv) : option jsstring :=
  if truthy_string (DEEPGRAM_API_KEY env)
  then
    match createClient_throws env, grantToken env with
    | None, inr {| grant_error := None; grant_result := Some (Some t) |} =>
        if nonempty t then Some t else None
    | _, _ => None
    end
  else None.

(** ** Notions used in the further properties *)

(** [err instanceof Error && err.name === 'NotAllowedError'] *)
Definition is_denial (e : Exn) : bool :=
  instanceof_Error e && str_eqb (exn_name e) (u16 "NotAllowedError").

(** The provider spoke the text: it is available, a voice is selected,
    the request gave audio and the playback came to its end. *)
Definition provider_spoke (selected : option ElevenLabsVoice) (env : SpeakEnv) : bool :=
  isAvailable env && is_some selected
  && match tts_fetch env with AudioBytes => true | _ => false end
  && negb (is_some (playAudio_result env)).

(** The calls that the provider path of [speakText] makes. *)
Definition provider_calls (selected : option ElevenLabsVoice) (env : SpeakEnv)
    (t : jsstring) : list Call :=
  match isAvailable env, selected with
  | true, Some v =>
      TextToSpeech t (voice_id v)
      :: match tts_fetch env with AudioBytes => [PlayAudio] | _ => [] end
  | _, _ => []
  end.


(** A frame that ends the session for fullscreen violations. *)
Definition is_fullscreen_end (frame : json) : bool :=
  match frame with
  | JObj fields => is_str (assoc (u16 "reason") fields) (u16 "fullscreen_violations")
  | _ => false
  end.

(** The status of the first render. *)
Definition initial_status : InterviewStatus := status (conn initial_cells).

(** The count that the timer shows. *)
Definition clock (s : Session) : Z := timerSec (timer (cells s)).

(** [startListening] in front of the endpoint: the token response is the
    one that [GET] gives. *)
Definition with_endpoint (tenv : TokenEnv) (env : ListenEnv) : ListenEnv :=
  {| token_fetch := inr (fetched (GET tenv));
     recording_stream := recording_stream env;
     isTypeSupported := isTypeSupported env;
     new_MediaRecorder := new_MediaRecorder env;
     listen_live := listen_live env |}.

(** An endpoint that was deployed without its key. *)
Definition endpoint_without_key : TokenEnv :=
  {| DEEPGRAM_API_KEY := None; createClient_throws := None;
     grantToken := inr {| grant_error := None;
                          grant_result := Some (Some (u16 "tok")) |} |}.

(** The playback of the provider's audio failed. *)
Definition playback_failed (selected : option ElevenLabsVoice) (env : SpeakEnv) : bool :=
  isAvailable env && is_some selected
  && match tts_fetch env with AudioBytes => true | _ => false end
  && is_some (playAudio_result env).

(** What the socket has carried and where it stands. *)
Definition wire_view (s : Session) : list json * ReadyState :=
  (wire (world s), readyState (world s)).

(** Nothing was sent on a socket that has not opened, and the first frame
    is the announcement of the screen share. *)
Definition announced_first (v : list json * ReadyState) : Prop :=
  match fst v with
  | [] => snd v <> OPEN
  | frame :: _ => frame = screen_share_frame "started"
  end.

(** What decides whether the page can still send. *)
Definition line_view (s : Session) : list json * ReadyState * bool * bool :=
  (wire (world s), readyState (world s), connectable (cells s),
   isConnected (conn (cells s))).

(** The socket of a connected session has closed after the frames [w]. *)
Definition hung_up (w : list json) (v : list json * ReadyState * bool * bool) : Prop :=
  v = (w, CLOSED, true, false).

(** Where the socket stands, and whether the page holds one. *)
Definition socket_view (s : Session) : ReadyState * bool * bool :=
  (readyState (world s), is_some (ws (conn (cells s))),
   isConnected (conn (cells s))).

(** Only a socket that the page holds has closed, and the page knows. *)
Definition closed_is_held (v : ReadyState * bool * bool) : Prop :=
  let '(state, held, connected) := v in
  state = CLOSED -> held = true /\ connected = false.

(** The number of frames that end the session for fullscreen violations. *)
Definition count_fullscreen_end (frames : list json) : nat :=
  List.length (filter is_fullscreen_end frames).

(** What the fullscreen monitor goes by. *)
Definition strikes_view (s : Session) : Z * bool * nat :=
  (fullscreenExitCount (proctor (cells s)),
   interviewEndedByProctor (proctor (cells s)),
   count_fullscreen_end (wire (world s))).

(** At most two exits are counted and at most one end is sent; the second
    exit and the end go with a session that is marked ended. *)
Definition two_strikes (v : Z * bool * nat) : Prop :=
  let '(exits, ended, ends) := v in
  (0 <= exits <= 2)%Z
  /\ (ends <= 1)%nat
  /\ (ended = false -> (exits <= 1)%Z /\ ends = 0%nat).

(** The session is marked ended. *)
Definition ended_flag (s : Session) : bool := interviewEndedByProctor (proctor (cells s)).

Definition is_set (b : bool) : Prop := b = true.




(** Whether the page holds a socket, the status in its cell, and the
    status that [socket.onmessage] captured. *)
Definition closure_view (s : Session) : bool * InterviewStatus * option InterviewStatus :=
  (is_some (ws (conn (cells s))), status (conn (cells s)),
   option_map message_status (onmessage_closure (world s))).

(** Without a socket the status is the first one, and a closure holds
    the first one. *)
Definition holds_first_status (v : bool * InterviewStatus * option InterviewStatus)
  : Prop :=
  let '(held, current, captured) := v in
  (held = false -> current = initial_status)
  /\ (captured = None \/ captured = Some initial_status).

(** The closure of the socket of the session of the examples. *)
Definition session_closure : MessageClosure :=
  {| message_status := initial_status;
     message_selectedVoice := Some getInterviewVoice |}.

(** The voice is the one that [loadVoices] selects, or none yet. *)
Definition is_interview_voice (v : option ElevenLabsVoice) : Prop :=
  v = None \/ v = Some getInterviewVoice.

(** What decides which voice speaks: the selected voice, the pending
    voice tests and the voice that [socket.onmessage] captured. *)
Definition speaker_view (s : Session)
  : option ElevenLabsVoice * list TestClosure * option (option ElevenLabsVoice) :=
  (selectedVoice (voice (cells s)), test_timers (world s),
   option_map message_selectedVoice (onmessage_closure (world s))).

Definition interview_speaker
    (v : option ElevenLabsVoice * list TestClosure * option (option ElevenLabsVoice))
  : Prop :=
  let '(selected, tests, captured) := v in
  is_interview_voice selected
  /\ tests = []
  /\ match captured with Some c => is_interview_voice c | None => True end.

(** A frame of the page: an object whose [answer], if it has one, is a
    string that is not empty and that [trim] leaves as it is. *)
Definition good_frame (frame : json) : bool :=
  match frame with
  | JObj fields =>
      match assoc (u16 "answer") fields with
      | None => true
      | Some (JStr t) => nonempty t && str_eqb (trim t) t
      | Some _ => false
      end
  | _ => false
  end.

Definition good_wire (frames : list json) : Prop := forallb good_frame frames = true.

(** * Properties *)

(** ** Trimming and joining *)

Lemma trimStart_solid : forall s, trimStart s = [] \/ starts_solid (trimStart s) = true.
Proof.
  induction s as [|c r IH]; simpl; [now left|].
  destruct (is_whitespace c) eqn:E; [exact IH|].
  right. simpl. now rewrite E.
Qed.

Lemma trimStart_snoc : forall s c,
  is_whitespace c = false -> exists z, trimStart (s ++ [c]) = z ++ [c].
Proof.
  induction s as [|a r IH]; simpl; intros c Hc.
  - rewrite Hc. now exists [].
  - destruct (is_whitespace a); [now apply IH|].
    now exists (a :: r).
Qed.

Lemma trimEnd_solid : forall s, starts_solid s = true -> starts_solid (trimEnd s) = true.
Proof.
  intros [|c r]; simpl; [discriminate|]. intros Hc.
  apply negb_true_iff in Hc.
  unfold trimEnd. simpl.
  destruct (trimStart_snoc (rev r) c Hc) as [z Hz].
  rewrite Hz, rev_app_distr. simpl. now rewrite Hc.
Qed.

Lemma trim_solid : forall s, trim s = [] \/ starts_solid (trim s) = true.
Proof.
  intros s. unfold trim.
  destruct (trimStart_solid s) as [H|H].
  - rewrite H. now left.
  - right. now apply trimEnd_solid.
Qed.

Lemma trim_of_solid : forall s, starts_solid s = true -> starts_solid (trim s) = true.
Proof.
  intros [|c r] H; [discriminate|].
  unfold trim. simpl in *. apply negb_true_iff in H. rewrite H.
  apply trimEnd_solid. simpl. now rewrite H.
Qed.

Lemma solid_nonempty : forall s, starts_solid s = true -> nonempty s = true.
Proof. now intros [|c r]. Qed.

Lemma final_fragment_solid : forall d t,
  final_fragment d = Some t -> starts_solid t = true.
Proof.
  intros d t. unfold final_fragment.
  destruct (is_final d); [|discriminate].
  destruct (first_transcript d) as [x|]; simpl; [|discriminate].
  destruct (trim_solid x) as [E|E].
  - rewrite E. discriminate.
  - destruct (trim x); [discriminate|]. intros [= <-]. exact E.
Qed.

Lemma appended_solid : forall evs,
  Forall (fun f => starts_solid f = true) (appended evs).
Proof.
  induction evs as [|d r IH]; simpl; [constructor|].
  destruct (final_fragment d) eqn:E; simpl; [|exact IH].
  constructor; [now apply final_fragment_solid with d | exact IH].
Qed.

Lemma join_sp_cons : forall f g rest,
  join_sp (f :: g :: rest) = f ++ SP :: join_sp (g :: rest).
Proof. reflexivity. Qed.

Lemma join_sp_merge : forall a f rest,
  join_sp ((a ++ SP :: f) :: rest) = a ++ SP :: join_sp (f :: rest).
Proof.
  intros a f [|g rest]; [reflexivity|].
  rewrite !join_sp_cons, <- app_assoc. reflexivity.
Qed.

Lemma fold_append_from : forall fs buf,
  nonempty buf = true ->
  fold_left append_fragment fs buf = join_sp (buf :: fs).
Proof.
  induction fs as [|f r IH]; intros buf Hb; simpl; [reflexivity|].
  unfold append_fragment at 2. rewrite Hb. simpl.
  rewrite IH.
  - destruct r; [reflexivity|]. apply join_sp_merge.
  - destruct buf; [discriminate|reflexivity].
Qed.

(** Appending one fragment after the other builds the joined string. *)
Lemma fold_append : forall fs,
  Forall (fun f => starts_solid f = true) fs ->
  fold_left append_fragment fs [] = join_sp fs.
Proof.
  intros [|f r] H; [reflexivity|]. simpl.
  inversion H; subst.
  unfold append_fragment at 2. simpl.
  apply fold_append_from. now apply solid_nonempty.
Qed.

Lemma join_sp_solid : forall fs,
  fs <> [] -> Forall (fun f => starts_solid f = true) fs ->
  starts_solid (join_sp fs) = true.
Proof.
  intros [|f r] Hne H; [contradiction|].
  inversion H; subst.
  destruct r; [assumption|].
  rewrite join_sp_cons. destruct f; [discriminate|]. assumption.
Qed.

(** ** What a handler leaves alone *)

Section Preserves.
Context {B : Type} (f : Session -> B).

Lemma preserves_ret : forall A (a : A), preserves f (ret a).
Proof. now intros A a s. Qed.

Lemma preserves_throw : forall A e, preserves f (@throw A e).
Proof. now intros A e s. Qed.

Lemma preserves_gets : forall A (g : Session -> A), preserves f (gets g).
Proof. now intros A g s. Qed.

Lemma preserves_look : forall A (g : Cells -> A), preserves f (look g).
Proof. now intros A g s. Qed.

Lemma preserves_bind : forall A C (c : M A) (k : A -> M C),
  preserves f c -> (forall a, preserves f (k a)) -> preserves f (bind c k).
Proof.
  intros A C c k Hc Hk s. unfold bind.
  specialize (Hc s). destruct (c s) as [[a|e] s1]; simpl in *.
  - now rewrite Hk.
  - exact Hc.
Qed.

Lemma preserves_try_catch : forall A (c : M A) (h : Exn -> M A),
  preserves f c -> (forall e, preserves f (h e)) -> preserves f (try_catch c h).
Proof.
  intros A c h Hc Hh s. unfold try_catch.
  specialize (Hc s). destruct (c s) as [[a|e] s1]; simpl in *.
  - exact Hc.
  - now rewrite Hh.
Qed.

Lemma preserves_when : forall b (c : M unit), preserves f c -> preserves f (when b c).
Proof. intros [|] c Hc; [exact Hc | apply preserves_ret]. Qed.

Lemma preserves_await : forall A (p : Exn + A), preserves f (await p).
Proof. now intros A [e|a] s. Qed.

Lemma preserves_raise_if : forall e, preserves f (raise_if e).
Proof. now intros [e|] s. Qed.

Lemma preserves_detached : forall c, preserves f c -> preserves f (detached c).
Proof.
  intros c Hc. apply preserves_try_catch; [exact Hc|]. intros e. apply preserves_ret.
Qed.

End Preserves.

(** Decomposes a goal [preserves f c] along the structure of [c]; a leaf
    is a write to the state that [f] does not read. *)
Ltac preserve :=
  repeat first
    [ progress cbv zeta
    | apply preserves_ret
    | apply preserves_throw
    | apply preserves_gets
    | apply preserves_look
    | apply preserves_await
    | apply preserves_raise_if
    | apply preserves_bind; [|intros ?]
    | apply preserves_try_catch; [|intros ?]
    | apply preserves_detached
    | apply preserves_when
    | match goal with
      | |- preserves _ (match ?x with _ => _ end) => destruct x
      end
    | (intros ?; reflexivity) ].

(** ** Handlers that keep a property of the state *)

Section Maintains.
Variable P : Session -> Prop.

Lemma maintains_ret : forall A (a : A), maintains P (ret a).
Proof. now intros A a s. Qed.

Lemma maintains_throw : forall A e, maintains P (@throw A e).
Proof. now intros A e s. Qed.

Lemma maintains_gets : forall A (g : Session -> A), maintains P (gets g).
Proof. now intros A g s. Qed.

Lemma maintains_look : forall A (g : Cells -> A), maintains P (look g).
Proof. now intros A g s. Qed.

Lemma maintains_bind : forall A C (c : M A) (k : A -> M C),
  maintains P c -> (forall a, maintains P (k a)) -> maintains P (bind c k).
Proof.
  intros A C c k Hc Hk s H. unfold bind.
  specialize (Hc s H). destruct (c s) as [[a|e] s1]; simpl in *.
  - now apply Hk.
  - exact Hc.
Qed.

Lemma maintains_when : forall b (c : M unit), maintains P c -> maintains P (when b c).
Proof. intros [|] c Hc; [exact Hc | apply maintains_ret]. Qed.

Lemma maintains_preserved : forall A B (f : Session -> B) (c : M A),
  (forall s s', f s' = f s -> P s -> P s') -> preserves f c -> maintains P c.
Proof. intros A B f c Hf Hc s H. apply (Hf s); [apply Hc | exact H]. Qed.

End Maintains.

(** ** Handlers that return *)

Lemma total_ret : forall A (a : A), total (ret a).
Proof. intros A a s. now exists a. Qed.

Lemma total_gets : forall A (g : Session -> A), total (gets g).
Proof. intros A g s. now exists (g s). Qed.

Lemma total_look : forall A (g : Cells -> A), total (look g).
Proof. intros A g s. now exists (g (cells s)). Qed.

Lemma total_modify : forall g, total (modify g).
Proof. intros g s. now exists tt. Qed.

Lemma total_bind : forall A C (c : M A) (k : A -> M C),
  total c -> (forall a, total (k a)) -> total (bind c k).
Proof.
  intros A C c k Hc Hk s. unfold bind.
  destruct (Hc s) as [a Ha]. destruct (c s) as [[a'|e] s1]; simpl in *.
  - apply Hk.
  - discriminate.
Qed.

(** A [try] whose [catch] returns, returns. *)
Lemma total_try_catch : forall A (c : M A) (h : Exn -> M A),
  (forall e, total (h e)) -> total (try_catch c h).
Proof.
  intros A c h Hh s. unfold try_catch.
  destruct (c s) as [[a|e] s1]; simpl.
  - now exists a.
  - apply Hh.
Qed.

Lemma total_when : forall b (c : M unit), total c -> total (when b c).
Proof. intros [|] c Hc; [exact Hc | apply total_ret]. Qed.

Ltac totality :=
  repeat first
    [ progress cbv zeta
    | apply total_ret
    | apply total_gets
    | apply total_look
    | apply total_modify
    | apply total_try_catch; intros ?
    | apply total_bind; [|intros ?]
    | apply total_when
    | match goal with
      | |- total (match ?x with _ => _ end) => destruct x
      end
    | (intros ?; eexists; reflexivity) ].


(** ** Running a handler step by step *)

Lemma exec_bind : forall A C (c : M A) (k : A -> M C) s a s',
  c s = (Normal a, s') -> exec (bind c k) s = exec (k a) s'.
Proof. intros A C c k s a s' H. unfold exec, bind. now rewrite H. Qed.

Lemma exec_then : forall C (c : M unit) (k : M C) s,
  total c -> exec (c ;; k) s = exec k (exec c s).
Proof.
  intros C c k s Hc. unfold exec, bind.
  destruct (Hc s) as [a Ha]. destruct (c s) as [[[]|e] s1]; simpl in *.
  - reflexivity.
  - discriminate.
Qed.

Lemma exec_look : forall A C (g : Cells -> A) (k : A -> M C) s,
  exec (bind (look g) k) s = exec (k (g (cells s))) s.
Proof. reflexivity. Qed.

Lemma ws_is_open_run : forall s,
  ws_is_open (ws (conn (cells s))) s = (Normal (socket_open s), s).
Proof.
  intros s. unfold ws_is_open, socket_open.
  destruct (ws (conn (cells s))); [|reflexivity].
  unfold bind, gets, ret. simpl. now destruct (readyState (world s)).
Qed.

(** Names every cell of a session. *)
Ltac destruct_session s :=
  destruct s as
    [[[sc cam mic share stp] [vid aud scr sref] [job res sock ic err st]
      [lis spk cur ai buf rcd dg sel] [tabs pw ended fsx fw fs prompt]
      [sec act]]
     [rs wi ca oe om tt rt]].

(** ** Runs of the page *)

Ltac unfold_handlers :=
  unfold handle, commit, rerender, release, close_opt, connectable, connect,
    timer_effect,
    init_params, loadVoices,
    requestPermissions, testVoice_click, testVoice_timer, testVoice_body,
    startScreenShare, completeSetup, enterFullscreen, screen_track_ended,
    onended_body,
    onopen, onmessage, onclose, onerror, utterance_settled, stopListening,
    startListening, cleanupVoice, on_transcript, handleFullscreenChange,
    return_to_fullscreen, onVisibilityChange, timer_timeout, end_click,
    speakText, textToSpeech, playAudio, send_if_open, send_opt, send,
    ws_is_open, field, type_includes_screen_share.

Lemma step_unfold : forall js_ge s e,
  step js_ge s e = if enabled e s
                   then exec (commit (cells s)) (exec (handle js_ge e) s)
                   else s.
Proof. reflexivity. Qed.

(** What every event keeps, every run keeps. *)
Lemma run_invariant : forall js_ge (P : Session -> Prop),
  (forall s e, P s -> P (step js_ge s e)) ->
  forall events s, P s -> P (run js_ge events s).
Proof.
  intros js_ge P Hstep. induction events as [|e r IH]; intros s Hs; simpl.
  - exact Hs.
  - apply IH, Hstep, Hs.
Qed.

(** ** Speech capture *)

Lemma on_transcript_world : forall d s, world (exec (on_transcript d) s) = world s.
Proof.
  intros d s. unfold on_transcript.
  destruct (option_map trim (first_transcript d)) as [[|c r]|]; try reflexivity.
  destruct (is_final d); reflexivity.
Qed.

Lemma on_transcript_conn : forall d s,
  conn (cells (exec (on_transcript d) s)) = conn (cells s).
Proof.
  intros d s. unfold on_transcript.
  destruct (option_map trim (first_transcript d)) as [[|c r]|]; try reflexivity.
  destruct (is_final d); reflexivity.
Qed.

(** Only a final result with some text reaches the buffer. *)
Lemma on_transcript_buffer : forall d s,
  bufferRef (voice (cells (exec (on_transcript d) s))) =
  match final_fragment d with
  | Some txt => append_fragment (bufferRef (voice (cells s))) txt
  | None => bufferRef (voice (cells s))
  end.
Proof.
  intros d s. unfold on_transcript, final_fragment.
  destruct (option_map trim (first_transcript d)) as [[|c r]|];
    destruct (is_final d); reflexivity.
Qed.

Lemma hear_world : forall evs s, world (hear evs s) = world s.
Proof.
  induction evs as [|d r IH]; intros s; simpl; [reflexivity|].
  unfold hear in *. simpl. rewrite IH. apply on_transcript_world.
Qed.

Lemma hear_conn : forall evs s, conn (cells (hear evs s)) = conn (cells s).
Proof.
  induction evs as [|d r IH]; intros s; simpl; [reflexivity|].
  unfold hear in *. simpl. rewrite IH. apply on_transcript_conn.
Qed.

Lemma hear_buffer : forall evs s,
  bufferRef (voice (cells (hear evs s))) =
  fold_left append_fragment (appended evs) (bufferRef (voice (cells s))).
Proof.
  induction evs as [|d r IH]; intros s; [reflexivity|].
  unfold hear in *. simpl. rewrite IH, on_transcript_buffer.
  unfold appended. simpl. fold (appended r).
  destruct (final_fragment d); reflexivity.
Qed.

(** From an empty buffer, the buffer is the appended fragments joined by
    single spaces. *)
Lemma hear_buffer_fresh : forall evs s,
  bufferRef (voice (cells s)) = [] ->
  bufferRef (voice (cells (hear evs s))) = join_sp (appended evs).
Proof.
  intros evs s H. rewrite hear_buffer, H.
  apply fold_append, appended_solid.
Qed.

(** What [stopListening] does, by cases on the trimmed buffer and on the
    socket. *)
Lemma stopListening_spec : forall s,
  let final := trim (bufferRef (voice (cells s))) in
  let s' := exec stopListening s in
  sent s' = (if nonempty final && socket_open s
             then sent s ++ [answer_frame final] else sent s)
  /\ shown_error s' = (if nonempty final then shown_error s else Some no_speech)
  /\ bufferRef (voice (cells s')) = []
  /\ currentTranscript (voice (cells s')) = []
  /\ isListening (voice (cells s')) = false.
Proof.
  intros [[su me co vo pr ti] w].
  destruct vo as [li sp ct ai bu re dg sv], co as [j r wsk ic er st],
    w as [rs wi ca oe om tt rt].
  cbv -[trim app].
  destruct (trim bu), re, dg, wsk as [[]|], rs; repeat split; reflexivity.
Qed.

Lemma total_cleanupVoice : total cleanupVoice.
Proof. unfold cleanupVoice. totality. Qed.

Lemma startListening_sent : forall env, preserves sent (startListening env).
Proof. intros env. unfold startListening, cleanupVoice, ws_is_open. preserve. Qed.

Lemma startListening_readyState : forall env,
  preserves (fun s => readyState (world s)) (startListening env).
Proof. intros env. unfold startListening, cleanupVoice, ws_is_open. preserve. Qed.

Lemma startListening_ws : forall env,
  preserves (fun s => ws (conn (cells s))) (startListening env).
Proof. intros env. unfold startListening, cleanupVoice, ws_is_open. preserve. Qed.

(** An activation starts from an empty buffer, whether or not the
    transcription session could be set up. *)
Lemma startListening_buffer : forall env s,
  is_some (audioStream (media (cells s))) && socket_open s = true ->
  bufferRef (voice (cells (exec (startListening env) s))) = [].
Proof.
  intros env s H. apply andb_true_iff in H. destruct H as [Hm Ho].
  unfold startListening. rewrite !exec_look.
  erewrite exec_bind by apply ws_is_open_run.
  rewrite Hm, Ho. simpl.
  rewrite exec_then by apply total_cleanupVoice.
  rewrite exec_then by totality.
  rewrite exec_then by totality.
  rewrite exec_then by totality.
  set (s1 := exec (write_bufferRef []) _).
  change [] with (bufferRef (voice (cells s1))) at 1.
  assert (P : forall c : M unit,
             preserves (fun s => bufferRef (voice (cells s))) c ->
             bufferRef (voice (cells (exec c s1))) = bufferRef (voice (cells s1)))
    by (intros c Hc; apply Hc).
  apply P. preserve.
Qed.

Lemma socket_open_after_hearing : forall env evs s,
  socket_open (hear evs (exec (startListening env) s)) = socket_open s.
Proof.
  intros env evs s. unfold socket_open.
  rewrite hear_world, hear_conn.
  pose proof (startListening_ws env s) as Hc.
  pose proof (startListening_readyState env s) as Hr.
  unfold exec. simpl in Hc, Hr. now rewrite Hc, Hr.
Qed.

(** C3, as the spec states it, fails when the socket is not open: the
    candidate stops an activation that heard "hello" while the socket is
    closing, and no answer is sent. *)
Lemma stopListening_not_open_counterexample :
  let s := run ge_num (to_session ++ [ClickMic listen_ok; Transcript (final_ "hello");
                                      SocketClosing]) initial in
  let s' := step ge_num s (ClickMic listen_ok) in
  enabled (ClickMic listen_ok) s = true
  /\ isListening (voice (cells s)) = true
  /\ appended [final_ "hello"] = [u16 "hello"]
  /\ bufferRef (voice (cells s)) = u16 "hello"
  /\ sent s' = sent s
  /\ shown_error s' = None
  /\ bufferRef (voice (cells s')) = [].
Proof. vm_compute. repeat split; reflexivity. Qed.

(** C3 (amended).  When the protocol socket is open, for every sequence of
    transcript events heard during one activation, [stopListening] sends
    exactly one answer, whose text is the appended fragments joined by
    single spaces and trimmed; when no fragment was appended it sends
    nothing and shows the "no speech" notice. *)
Theorem stopListening_sends_the_joined_answer :
  forall (env : ListenEnv) (evs : list DeepgramTranscriptData) (s : Session),
    is_some (audioStream (media (cells s))) = true ->
    socket_open s = true ->
    let s' := exec stopListening (hear evs (exec (startListening env) s)) in
    match appended evs with
    | [] => sent s' = sent s /\ shown_error s' = Some no_speech
    | _ :: _ => sent s' = sent s ++ [answer_frame (trim (join_sp (appended evs)))]
    end.
Proof.
  intros env evs s Hmic Hopen s'.
  destruct (stopListening_spec (hear evs (exec (startListening env) s)))
    as (Hsent & Herr & _).
  fold s' in Hsent, Herr.
  rewrite socket_open_after_hearing, Hopen, andb_true_r in Hsent.
  rewrite hear_buffer_fresh in Hsent, Herr
    by (apply startListening_buffer; now rewrite Hmic, Hopen).
  assert (Hs : sent (hear evs (exec (startListening env) s)) = sent s).
  { unfold sent. rewrite hear_world. apply (startListening_sent env s). }
  rewrite Hs in Hsent.
  pose proof (appended_solid evs) as Hsolid.
  destruct (appended evs) as [|f fs] eqn:E.
  - simpl in Hsent, Herr. now split.
  - assert (Hn : nonempty (trim (join_sp (f :: fs))) = true).
    { apply solid_nonempty, trim_of_solid, join_sp_solid;
        [discriminate | exact Hsolid]. }
    now rewrite Hn in Hsent.
Qed.

Lemma stopListening_sends_the_joined_answer_witness :
  sent (exec stopListening
          (hear [final_ "hello"; interim "wor"; final_ " world "]
             (exec (startListening listen_ok) in_session)))
  = sent in_session ++ [answer_frame (u16 "hello world")].
Proof.
  exact (stopListening_sends_the_joined_answer listen_ok
           [final_ "hello"; interim "wor"; final_ " world "] in_session
           eq_refl eq_refl).
Defined.

(** C10.  When [stopListening] runs on a buffer that the transcript
    handler has filled, while the socket is absent or not open, it sends
    nothing, shows nothing, and the buffer is gone: [cleanupVoice] has
    emptied it before the test on the socket. *)
Theorem stopListening_without_socket_loses_the_answer :
  forall (evs : list DeepgramTranscriptData) (s0 : Session),
    bufferRef (voice (cells s0)) = [] ->
    let s := hear evs s0 in
    nonempty (bufferRef (voice (cells s))) = true ->
    socket_open s = false ->
    let s' := exec stopListening s in
    sent s' = sent s
    /\ shown_error s' = shown_error s
    /\ bufferRef (voice (cells s')) = []
    /\ bufferRef (voice (cells (exec cleanupVoice s))) = [].
Proof.
  intros evs s0 Hfresh s Hbuf Hclosed s'.
  destruct (stopListening_spec s) as (Hsent & Herr & Hb & _).
  fold s' in Hsent, Herr, Hb.
  rewrite Hclosed, andb_false_r in Hsent.
  assert (Hn : nonempty (trim (bufferRef (voice (cells s)))) = true).
  { unfold s in *. rewrite hear_buffer_fresh in * by exact Hfresh.
    apply solid_nonempty, trim_of_solid, join_sp_solid; [|apply appended_solid].
    intros E. rewrite E in Hbuf. discriminate. }
  rewrite Hn in Herr.
  repeat split; try assumption.
  destruct s as [[su me co [li sp ct ai bu [r|] [d|] sv] pr ti] w]; reflexivity.
Qed.

Lemma stopListening_without_socket_witness :
  let s := hear [final_ "hello"]
             (run ge_num (to_session ++ [ClickMic listen_ok; SocketClosing]) initial) in
  sent (exec stopListening s) = sent s
  /\ shown_error (exec stopListening s) = shown_error s
  /\ bufferRef (voice (cells (exec stopListening s))) = []
  /\ bufferRef (voice (cells (exec cleanupVoice s))) = [].
Proof.
  exact (stopListening_without_socket_loses_the_answer [final_ "hello"]
           (run ge_num (to_session ++ [ClickMic listen_ok; SocketClosing]) initial)
           eq_refl eq_refl eq_refl).
Defined.





(** ** Setup *)

(** C2: the code breaks it.  With both permissions granted and the screen
    shared, a fullscreen request that the browser refuses still completes
    the setup and starts the timer: [enterFullscreen] catches the refusal
    and shows "Fullscreen mode is required for the interview ...", and
    [completeSetup] goes on.  The socket is then created, and when it
    opens the message is erased: the interview runs outside fullscreen
    with nothing on the screen to say so.  The two earlier steps of the
    setup do halt when the browser refuses them: [requestPermissions] and
    [startScreenShare] show their "... required for the interview"
    message, the setup stays at its step, and the interview cannot be
    started. *)
Theorem completeSetup_ignores_fullscreen_failure :
  let s := at_ready in
  let s' := exec (completeSetup fullscreen_refused) s in
  let opened := run ge_num [ClickStartInterview fullscreen_refused; SocketOpen] s in
  let no_camera := step ge_num initial (ClickAllow camera_refused) in
  let no_share := step ge_num at_screen_share (ClickStartScreenShare (inl refusal)) in
  enabled (ClickStartInterview fullscreen_refused) s = true
  /\ fullscreen_entered fullscreen_refused = false
  /\ setupComplete (setup (cells s)) = false
  /\ setupComplete (setup (cells s')) = true
  /\ timerActive (timer (cells s')) = true
  /\ shown_error s' = Some fullscreen_required
  /\ (setupComplete (setup (cells opened)) = true
      /\ timer_running (cells opened) = true
      /\ socket_open opened = true
      /\ shown_error opened = None)
  /\ (shown_error no_camera = Some permissions_required
      /\ setupStep (setup (cells no_camera)) = setupStep (setup (cells initial))
      /\ enabled (ClickStartInterview fullscreen_allowed) no_camera = false)
  /\ (shown_error no_share = Some screen_share_required
      /\ setupStep (setup (cells no_share)) = setupStep (setup (cells at_screen_share))
      /\ enabled (ClickStartInterview fullscreen_allowed) no_share = false).
Proof. vm_compute. repeat split; reflexivity. Qed.

(** The same for every state and every answer of the browser to the
    fullscreen request: [completeSetup] tests the two permissions and the
    screen share, and nothing else; a fullscreen request that fails only
    shows an error. *)
Lemma completeSetup_gated_by_permissions_and_share :
  forall (env : FullscreenEnv) (s : Session),
    let s' := exec (completeSetup env) s in
    if setup_preconditions s
    then setupComplete (setup (cells s')) = true
         /\ timerActive (timer (cells s')) = true
         /\ shown_error s' = (if requestFullscreen_defined env
                                 && is_some (requestFullscreen_result env)
                              then Some fullscreen_required else shown_error s)
    else s' = s.
Proof.
  intros [defined result] s. destruct_session s. unfold setup_preconditions. simpl.
  destruct cam, mic, share, defined, result; simpl; repeat split; reflexivity.
Qed.

(** C4: the code breaks it.  Whatever the state, when the browser grants
    the camera and the microphone, [requestPermissions] puts the setup at
    the screen-share step: voice selection is skipped. *)
Theorem requestPermissions_skips_voice_selection :
  forall (v a : MediaStream) (mounted : bool) (s : Session),
    setupStep (setup (cells (exec (requestPermissions
        {| camera := inr v; microphone := inr a; videoRef_current := mounted |}) s)))
    = screen_share.
Proof. intros v a [|] s; reflexivity. Qed.

(** The first click on "Allow Camera & Microphone": from the permissions
    step to the screen-share step, and the button that leads to voice
    selection is not there any more. *)
Lemma requestPermissions_first_click :
  let s := run ge_num [ParamsResolved (u16 "job-1") (u16 "resume-1"); VoicesLoaded]
             initial in
  let s' := step ge_num s (ClickAllow both_allowed) in
  setupStep (setup (cells s)) = permissions
  /\ setupStep (setup (cells s')) = screen_share
  /\ enabled ClickContinueToVoice s' = false
  /\ enabled (ClickStartScreenShare (inr screen_stream)) s' = true.
Proof. vm_compute. repeat split; reflexivity. Qed.

Lemma handle_keeps_setup : forall js_ge e,
  touches_setup e = false -> preserves setup_of (handle js_ge e).
Proof.
  intros js_ge e H. destruct e; try discriminate; clear H; unfold_handlers; preserve.
Qed.

Lemma commit_keeps_setup : forall before, preserves setup_of (commit before).
Proof. intros before. unfold_handlers. preserve. Qed.

(** At the permissions step the microphone is never granted yet, so the
    button that leads to voice selection is never shown; and no other
    event leads there. *)
Lemma step_keeps_setup_reachable : forall js_ge s e,
  setup_reachable (setup_of s) = true ->
  setup_reachable (setup_of (step js_ge s e)) = true.
Proof.
  intros js_ge s e H. rewrite step_unfold.
  destruct (enabled e s) eqn:En; [|exact H].
  unfold exec. rewrite commit_keeps_setup.
  destruct (touches_setup e) eqn:T.
  - unfold setup_reachable, setup_of, enabled, at_step, both_granted in *.
    destruct_session s. simpl in H, En.
    destruct e; try discriminate; clear T.
    + destruct env as [[[[|] n1 m1]|v] [[[|] n2 m2]|a] [|]];
        cbv -[str_eqb]; repeat destruct (str_eqb _ _);
        destruct stp, mic; first [exact H | discriminate | reflexivity].
    + destruct sc, stp, cam, mic; discriminate.
    + reflexivity.
    + destruct display as [e|[i [|n]]]; cbv; try reflexivity;
        destruct stp; (exact H || discriminate).
    + destruct cam, mic, share, env as [[|] [x|]]; cbv; exact H.
    + destruct oe as [[[|] [[]|]]|]; try exact H; destruct rs; exact H.
  - rewrite handle_keeps_setup by exact T. exact H.
Qed.

(** In no run of the page is the setup ever at the voice-selection step. *)
Theorem voice_selection_is_never_reached : forall js_ge events,
  setupStep (setup (cells (run js_ge events initial))) <> voice_selection.
Proof.
  intros js_ge events.
  assert (H : setup_reachable (setup_of (run js_ge events initial)) = true).
  { apply run_invariant with (P := fun s => setup_reachable (setup_of s) = true).
    - intros s e. apply step_keeps_setup_reachable.
    - reflexivity. }
  unfold setup_reachable, setup_of in H. intros E. rewrite E in H. discriminate.
Qed.

(** The closure that [startScreenShare] puts on the screen track.  The
    button that starts the share is rendered during the setup only, so the
    closure holds [setupComplete = false]: applied to any state, it marks
    the share inactive, sends nothing and does not end the session.  (In
    the runs of the page the closure is gone once there is a socket: the
    page stops the track itself when the socket is created, see
    [screen_track_is_stopped_with_the_socket].) *)
Lemma screen_share_end_is_not_reported :
  forall (stream : MediaStream) (s later : Session),
    enabled (ClickStartScreenShare (inr stream)) s = true ->
    Nat.eqb (video_tracks stream) 0 = false ->
    exists c : EndedClosure,
      onended (world (exec (startScreenShare (inr stream)) s)) = Some c
      /\ ended_setupComplete c = false
      /\ let s' := exec (onended_body c) later in
         screenShareActive (setup (cells s')) = false
         /\ sent s' = sent later
         /\ over (cells s') = over (cells later).
Proof.
  intros [i n] s later He Hn. simpl in Hn.
  destruct n as [|n]; [discriminate|].
  unfold enabled, at_step in He. destruct_session s. simpl in He.
  destruct sc; [discriminate|].
  eexists. split; [reflexivity|]. split; [reflexivity|].
  cbv. repeat split.
Qed.

(** The same for every answer of the browser to the request: the closure
    on the track is the one that was there, or a stale one ... *)
Lemma startScreenShare_captures_setup : forall display s c,
  enabled (ClickStartScreenShare display) s = true ->
  onended (world (exec (startScreenShare display) s)) = Some c ->
  ended_setupComplete c = false \/ onended (world s) = Some c.
Proof.
  intros display s c He Hc. unfold enabled, at_step in He.
  destruct_session s. simpl in He.
  destruct sc; [discriminate|].
  destruct display as [e|[i [|n]]]; cbv in Hc.
  - now right.
  - now right.
  - left. now injection Hc as <-.
Qed.

(** ... and when the track ends, a stale closure sends nothing. *)
Lemma stale_closure_never_sends : forall s c,
  onended (world s) = Some c ->
  ended_setupComplete c = false ->
  sent (exec screen_track_ended s) = sent s.
Proof.
  intros s [seen w] H Hc. simpl in Hc. subst seen.
  unfold screen_track_ended, exec, bind, gets. simpl. rewrite H.
  reflexivity.
Qed.

Lemma deliver_quiet : forall frame,
  is_share_ended frame = false -> preserves reports_share_end (deliver frame).
Proof.
  intros frame H s. unfold reports_share_end, sent. simpl.
  rewrite existsb_app. simpl. rewrite H. now rewrite !orb_false_r.
Qed.

(** As [preserve], for the observation [reports_share_end]: a leaf may
    also send a frame that does not report the end of the share. *)
Ltac quiet :=
  repeat first
    [ progress cbv zeta
    | apply preserves_ret
    | apply preserves_throw
    | apply preserves_gets
    | apply preserves_look
    | apply preserves_await
    | apply preserves_raise_if
    | apply preserves_bind; [|intros ?]
    | apply preserves_try_catch; [|intros ?]
    | apply preserves_detached
    | apply preserves_when
    | (apply deliver_quiet; reflexivity)
    | match goal with
      | |- preserves _ (match ?x with _ => _ end) => destruct x
      end
    | (intros ?; reflexivity) ].

Lemma handle_quiet : forall js_ge e,
  match e with ScreenTrackEnded => false | _ => true end = true ->
  preserves reports_share_end (handle js_ge e).
Proof.
  intros js_ge e H. destruct e; try discriminate; clear H; unfold_handlers; quiet.
Qed.

Lemma commit_quiet : forall before, preserves reports_share_end (commit before).
Proof. intros before. unfold_handlers. quiet. Qed.

Lemma handle_keeps_closure : forall js_ge e,
  match e with
  | ScreenTrackEnded | ClickStartScreenShare _ => false
  | _ => true
  end = true ->
  preserves (fun s => onended (world s)) (handle js_ge e).
Proof.
  intros js_ge e H. destruct e; try discriminate; clear H; unfold_handlers; preserve.
Qed.

Lemma commit_keeps_stale : forall before,
  maintains (fun s => closure_is_stale s = true) (commit before).
Proof.
  intros before.
  assert (K : forall A (c : M A), preserves (fun s => onended (world s)) c ->
              maintains (fun s => closure_is_stale s = true) c).
  { intros A c. apply maintains_preserved. unfold closure_is_stale.
    intros s s' E H. now rewrite E. }
  assert (R : forall seen, maintains (fun s => closure_is_stale s = true) (rerender seen)).
  { intros seen. unfold rerender, release.
    apply maintains_bind; [apply maintains_look|]. intros shown.
    apply maintains_when.
    apply maintains_bind; [apply K; unfold cleanupVoice; preserve|]. intros _.
    apply maintains_bind.
    - apply maintains_when. intros s _. reflexivity.
    - intros _. apply K. unfold close_opt. preserve. }
  unfold commit.
  apply maintains_bind; [apply R|]. intros _.
  apply maintains_bind; [apply maintains_look|]. intros shown. cbv zeta.
  apply maintains_bind.
  - apply maintains_when. apply maintains_bind; [|intros _; apply R].
    apply K. unfold connect. preserve.
  - intros _. apply K. unfold timer_effect, send_opt, send. preserve.
Qed.

Lemma step_share_end_unreported : forall js_ge s e,
  share_end_unreported s = true -> share_end_unreported (step js_ge s e) = true.
Proof.
  intros js_ge s e H. rewrite step_unfold.
  destruct (enabled e s) eqn:En; [|exact H].
  unfold share_end_unreported in *.
  apply andb_true_iff in H as [Hc Hr].
  unfold exec. rewrite commit_quiet.
  rewrite (commit_keeps_stale (cells s)); simpl.
  - destruct e; try (rewrite handle_quiet by reflexivity; exact Hr).
    destruct_session s. unfold reports_share_end, sent, closure_is_stale in *.
    simpl in Hc, Hr.
    destruct oe as [[[|] w]|]; try discriminate; simpl;
      rewrite Hr; reflexivity.
  - unfold closure_is_stale in *.
    destruct e;
      try (rewrite handle_keeps_closure by reflexivity; exact Hc).
    + unfold enabled, at_step in En. destruct_session s. simpl in En, Hc.
      destruct sc; [discriminate|].
      destruct display as [e|[i [|n]]]; try exact Hc. reflexivity.
    + destruct_session s. simpl in Hc.
      destruct oe as [[[|] w]|]; try discriminate; reflexivity.
Qed.

(** In no run of the page is the end of the screen share ever reported
    on the protocol socket. *)
Theorem share_end_is_never_reported : forall js_ge events,
  existsb is_share_ended (sent (run js_ge events initial)) = false.
Proof.
  intros js_ge events.
  assert (H : share_end_unreported (run js_ge events initial) = true).
  { apply run_invariant with (P := fun s => share_end_unreported s = true).
    - intros s e. apply step_share_end_unreported.
    - reflexivity. }
  unfold share_end_unreported in H. apply andb_true_iff in H as [_ H].
  now apply negb_true_iff in H.
Qed.

Lemma handle_keeps_share : forall js_ge e,
  touches_share e = false -> preserves share_view (handle js_ge e).
Proof.
  intros js_ge e H. destruct e; try discriminate; clear H; unfold_handlers; preserve.
Qed.

Lemma same_inputs_new_socket : forall a b,
  ws (conn a) = None -> is_some (ws (conn b)) = true -> same_inputs a b = false.
Proof.
  intros a b Ha Hb. unfold same_inputs. rewrite Ha, Hb. apply andb_false_r.
Qed.

Lemma rerender_keeps_stopped : forall seen,
  maintains (fun s => track_stopped (share_view s) = true) (rerender seen).
Proof.
  intros seen. unfold rerender, release.
  assert (K : forall A (c : M A), preserves share_view c ->
              maintains (fun s => track_stopped (share_view s) = true) c).
  { intros A c. apply maintains_preserved. intros s s' E H. now rewrite E. }
  apply maintains_bind; [apply maintains_look|]. intros shown.
  apply maintains_when.
  apply maintains_bind; [apply K; unfold cleanupVoice; preserve|]. intros _.
  apply maintains_bind.
  - apply maintains_when. intros s. unfold track_stopped, share_view. simpl.
    destruct (is_some (ws (conn (cells s)))); [|reflexivity].
    now destruct (is_some (onended (world s))).
  - intros _. apply K. unfold close_opt. preserve.
Qed.

(** The socket effect sets [ws]; the cleanup of the streams effect runs
    and stops the screen track. *)
Lemma connect_stops_track : forall s,
  track_stopped (share_view s) = true ->
  ws (conn (cells s)) = None ->
  connectable (cells s) = true ->
  track_stopped (share_view (exec (connect ;; rerender (cells s)) s)) = true.
Proof.
  intros s H Hw Hc.
  unfold track_stopped, share_view, connectable in *.
  destruct_session s. simpl in *. subst sock.
  destruct sc; [|discriminate].
  destruct job as [|j0 job]; [discriminate|].
  destruct res as [|r0 res]; [discriminate|].
  cbv -[same_inputs]. rewrite same_inputs_new_socket by reflexivity.
  destruct rcd, dg, scr, oe; try discriminate; reflexivity.
Qed.

Lemma commit_stops_track : forall before s,
  track_stopped (share_view s) = true ->
  (connectable before = false -> ws (conn (cells s)) = None) ->
  track_stopped (share_view (exec (commit before) s)) = true.
Proof.
  intros before s H Hw. unfold commit.
  assert (T : forall seen, total (rerender seen))
    by (intros seen; unfold rerender, release, close_opt, cleanupVoice; totality).
  assert (V : preserves share_view timer_effect)
    by (unfold timer_effect, send_opt, send; preserve).
  rewrite exec_then by apply T.
  pose proof (rerender_keeps_stopped before) as H1.
  unfold maintains in H1. specialize (H1 s H).
  assert (W : ws (conn (cells (exec (rerender before) s))) = ws (conn (cells s))).
  { assert (K : preserves (fun s => ws (conn (cells s))) (rerender before))
      by (unfold rerender, release, close_opt, cleanupVoice; preserve).
    apply K. }
  change (snd (rerender before s)) with (exec (rerender before) s) in H1.
  set (s1 := exec (rerender before) s) in *.
  rewrite exec_look.
  destruct (connectable (cells s1) && negb (connectable before)) eqn:B.
  - apply andb_true_iff in B as [B1 B2]. apply negb_true_iff in B2.
    assert (Tc : total (when true (connect ;; rerender (cells s1)))).
    { unfold when. apply total_bind; [unfold connect; totality|].
      intros _. apply T. }
    rewrite exec_then by exact Tc.
    unfold preserves in V. unfold exec at 1. rewrite V. unfold when.
    apply connect_stops_track; [exact H1| |exact B1].
    rewrite W. now apply Hw.
  - unfold when. rewrite exec_then by apply total_ret.
    unfold preserves in V. unfold exec at 1. rewrite V. exact H1.
Qed.

Lemma handle_keeps_socket : forall js_ge e,
  preserves (fun s => ws (conn (cells s))) (handle js_ge e).
Proof. intros js_ge e. destruct e; unfold_handlers; preserve. Qed.

Lemma step_keeps_stopped : forall js_ge s e,
  track_stopped (share_view s) = true ->
  track_stopped (share_view (step js_ge s e)) = true.
Proof.
  intros js_ge s e H. rewrite step_unfold.
  destruct (enabled e s) eqn:En; [|exact H].
  apply commit_stops_track.
  - destruct (touches_share e) eqn:T.
    + unfold track_stopped, share_view, connectable, enabled, at_step in *.
      destruct_session s. simpl in H, En.
      destruct e; try discriminate; clear T.
      * (* the parameters arrive: there is no socket yet *)
        apply negb_true_iff in En. rewrite En in H.
        destruct sock; [destruct oe, sc; discriminate|]. exact H.
      * (* the share is started: during the setup, without a socket *)
        destruct sc; [discriminate|].
        destruct sock; [destruct oe; discriminate|].
        destruct display as [e|[i [|n]]]; try exact H; destruct oe; reflexivity.
      * (* the interview is started *)
        destruct sock, oe, cam, mic, share, env as [[|] [x|]], sc;
          try discriminate; exact H.
      * (* the track ends *)
        destruct sock, oe as [[[|] [[]|]]|], rs; try discriminate;
          first [exact H | reflexivity].
    + unfold exec. now rewrite handle_keeps_share.
  - intros Hc. unfold exec. rewrite handle_keeps_socket.
    unfold track_stopped, share_view in H.
    destruct (ws (conn (cells s))); [|reflexivity].
    simpl in H. rewrite Hc, andb_false_r in H. discriminate.
Qed.

(** X22.  Once the protocol socket exists, the page has itself stopped
    the screen track, through the cleanup of the streams effect: in no run
    can the track end while there is a socket. *)
Theorem screen_track_is_stopped_with_the_socket : forall js_ge events,
  let s := run js_ge events initial in
  is_some (ws (conn (cells s))) = true -> enabled ScreenTrackEnded s = false.
Proof.
  intros js_ge events s Hs.
  assert (H : track_stopped (share_view s) = true).
  { apply run_invariant with (P := fun s => track_stopped (share_view s) = true).
    - intros s0 e. apply step_keeps_stopped.
    - reflexivity. }
  unfold track_stopped, share_view in H. rewrite Hs in H.
  apply andb_true_iff in H as [H _]. now apply negb_true_iff in H.
Qed.

(** ** The protocol socket *)












(** An error that is an object is stored, and not shown: the render of the
    error paragraph throws. *)
Lemma onmessage_object_error_breaks_the_render :
  let s := in_session in
  let s' := step ge_num s (SocketMessage no_provider (Some object_error_frame)) in
  enabled (SocketMessage no_provider (Some object_error_frame)) s = true
  /\ error_banner s = NoBanner
  /\ shown_error s' = Some (JObj [(u16 "code", JNum 1)])
  /\ error_banner s' = RenderThrows.
Proof. vm_compute. repeat split; reflexivity. Qed.



(** ** Integrity monitoring *)

(** C1: the code breaks it.  Three tab switches terminate the session and
    send the end-of-session message; the fourth, while the session is
    already terminated, counts again and sends a second one. *)
Theorem tab_switches_after_termination_send_end_again :
  let s3 := run ge_num (to_session ++ repeat (VisibilityChange true) 3) initial in
  let s4 := step ge_num s3 (VisibilityChange true) in
  interviewEndedByProctor (proctor (cells s3)) = true
  /\ tabSwitchCount (proctor (cells s3)) = 3%Z
  /\ count_end (sent s3) = 1
  /\ sent s4 = sent s3 ++ [tab_switch_frame 4; end_interview]
  /\ tabSwitchCount (proctor (cells s4)) = 4%Z
  /\ count_end (sent s4) = 2.
Proof. vm_compute. repeat split; reflexivity. Qed.

(** [onVisibilityChange] does not read [interviewEndedByProctor]: from the
    third switch on, every switch in a session with an open socket sends
    the end-of-session message. *)
Lemma onVisibilityChange_ignores_termination : forall s,
  setupComplete (setup (cells s)) = true ->
  socket_open s = true ->
  (2 <= tabSwitchCount (proctor (cells s)))%Z ->
  sent (exec (onVisibilityChange true) s)
  = sent s ++ [tab_switch_frame (tabSwitchCount (proctor (cells s)) + 1); end_interview].
Proof.
  intros s Ha Ho Hc. unfold socket_open in Ho. apply andb_true_iff in Ho as [Hw Hr].
  destruct_session s. simpl in *. subst.
  destruct sock as [[]|]; [|discriminate]. destruct rs; try discriminate.
  unfold onVisibilityChange, exec, sent.
  cbn -[Z.add Z.eqb Z.leb tab_switch_frame end_interview].
  replace (tabs + 1 =? 1)%Z with false by lia.
  replace (tabs + 1 =? 2)%Z with false by lia.
  replace (3 <=? tabs + 1)%Z with true by lia.
  cbn -[Z.add tab_switch_frame end_interview]. now rewrite <- app_assoc.
Qed.

(** The sibling handler does read it: a fullscreen exit in a terminated
    session sends nothing. *)
Lemma handleFullscreenChange_respects_termination : forall now s,
  interviewEndedByProctor (proctor (cells s)) = true ->
  sent (exec (handleFullscreenChange false now) s) = sent s.
Proof.
  intros now s H. destruct_session s. simpl in H. subst.
  destruct sc; reflexivity.
Qed.

(** ** The session timer *)

Lemma second_when_over : forall s, over (cells s) = true ->
  exec timer_effect s = s /\ exec second s = s.
Proof.
  intros s H. unfold over in H. destruct_session s. simpl in H.
  destruct st as [qc mq done]. simpl in H.
  destruct done, ended, act; try discriminate; split; reflexivity.
Qed.

Lemma second_counts_down : forall s sec,
  timer_running (cells s) = true -> (1 < sec)%Z ->
  exec second (at_second sec s) = at_second (sec - 1) s.
Proof.
  intros s n H Hs. unfold timer_running in H. destruct_session s. simpl in H.
  destruct st as [qc mq done]. simpl in H.
  destruct act, done, ended; try discriminate.
  cbv -[Z.leb Z.sub].
  destruct (Z.leb_spec n 0); [lia|]. cbv -[Z.leb Z.sub].
  destruct (Z.leb_spec (n - 1) 0); [lia|]. reflexivity.
Qed.

Lemma second_expires : forall s,
  timer_running (cells s) = true ->
  exec second (at_second 1 s) = expired s.
Proof.
  intros s H. unfold timer_running in H. destruct_session s. simpl in H.
  destruct st as [qc mq done]. simpl in H.
  destruct act, done, ended; try discriminate.
  reflexivity.
Qed.

(** The second that brings the count to 0, by the state of the socket:
    on a socket that is still connecting [ws?.send] throws, after the
    timer was stopped and before the session is marked ended. *)
Lemma expired_on_socket : forall s,
  timer_running (cells s) = true ->
  let s' := expired s in
  timerSec (timer (cells s')) = 0%Z
  /\ timerActive (timer (cells s')) = false
  /\ returns timer_effect (at_second 0 s) = negb (socket_connecting s)
  /\ interviewEndedByProctor (proctor (cells s')) = negb (socket_connecting s)
  /\ shown_error s' = (if socket_connecting s then shown_error s
                       else Some (str "Interview ended: Time limit reached."))
  /\ sent s' = sent s ++ (if socket_open s then [end_interview] else []).
Proof.
  intros s H. unfold timer_running in H. destruct_session s. simpl in H.
  destruct st as [qc mq done]. simpl in H.
  destruct act, done, ended; try discriminate.
  destruct sock as [[]|], rs;
    cbv -[app]; rewrite ?app_nil_r; repeat split; reflexivity.
Qed.

Lemma expired_stays : forall s,
  timer_running (cells s) = true ->
  exec second (expired s) = expired s.
Proof.
  intros s H. unfold timer_running in H. destruct_session s. simpl in H.
  destruct st as [qc mq done]. simpl in H.
  destruct act, done, ended; try discriminate.
  destruct sock as [[]|], rs; reflexivity.
Qed.

Lemma last_second_returns : forall s,
  timer_running (cells s) = true ->
  returns second (at_second 1 s) = returns timer_effect (at_second 0 s).
Proof.
  intros s H. unfold timer_running in H. destruct_session s. simpl in H.
  destruct st as [qc mq done]. simpl in H.
  destruct act, done, ended; try discriminate.
  destruct sock as [[]|], rs; reflexivity.
Qed.

Lemma seconds_S : forall k s, seconds (S k) s = exec second (seconds k s).
Proof. reflexivity. Qed.

Lemma seconds_count_down : forall s k,
  timer_running (cells s) = true ->
  (k < 600)%nat ->
  seconds k (at_second 600 s) = at_second (600 - Z.of_nat k) s.
Proof.
  intros s k H. induction k as [|k IH]; intros Hk.
  - reflexivity.
  - rewrite seconds_S, IH by lia.
    rewrite second_counts_down by (assumption || lia).
    f_equal. lia.
Qed.

Lemma seconds_expire : forall s n,
  timer_running (cells s) = true ->
  seconds (600 + n) (at_second 600 s) = expired s.
Proof.
  intros s n H. induction n as [|n IH].
  - replace (600 + 0)%nat with (S 599) by lia.
    rewrite seconds_S, seconds_count_down by (assumption || lia).
    change (600 - Z.of_nat 599)%Z with 1%Z. now apply second_expires.
  - replace (600 + S n)%nat with (S (600 + n)) by lia.
    rewrite seconds_S, IH. now apply expired_stays.
Qed.

Lemma at_second_same : forall s, at_second (timerSec (timer (cells s))) s = s.
Proof. intros s. destruct_session s. reflexivity. Qed.

Lemma timer_runs_from_the_budget : forall s,
  timer_running (cells s) = true ->
  timerSec (timer (cells s)) = TIMER_SEC ->
  (forall k, (k < 600)%nat ->
     timerSec (timer (cells (seconds k s))) = (600 - Z.of_nat k)%Z
     /\ timer_running (cells (seconds k s)) = true
     /\ sent (seconds k s) = sent s)
  /\ returns second (seconds 599 s) = negb (socket_connecting s)
  /\ (forall n,
        let s' := seconds (600 + n) s in
        timerSec (timer (cells s')) = 0%Z
        /\ timerActive (timer (cells s')) = false
        /\ interviewEndedByProctor (proctor (cells s')) = negb (socket_connecting s)
        /\ shown_error s' = (if socket_connecting s then shown_error s
                             else Some (str "Interview ended: Time limit reached."))
        /\ sent s' = sent s ++ (if socket_open s then [end_interview] else [])).
Proof.
  intros s H Hs.
  assert (E : s = at_second 600 s)
    by (rewrite <- (at_second_same s) at 1; now rewrite Hs).
  destruct (expired_on_socket s H) as (X1 & X2 & X3 & X4 & X5 & X6).
  split; [|split].
  - intros k Hk.
    assert (Ek : seconds k s = at_second (600 - Z.of_nat k) s)
      by (rewrite E at 1; now apply seconds_count_down).
    rewrite Ek. clear -H. destruct_session s. repeat split. exact H.
  - assert (Ek : seconds 599 s = at_second 1 s)
      by (rewrite E at 1; rewrite seconds_count_down by (assumption || lia);
          reflexivity).
    rewrite Ek, last_second_returns by assumption. exact X3.
  - intros n s'.
    assert (En : s' = expired s)
      by (subst s'; rewrite E at 1; now apply seconds_expire).
    rewrite En. repeat split; assumption.
Qed.

Lemma completeSetup_starts_the_timer : forall env s,
  setup_preconditions s = true ->
  timerActive (timer (cells (exec (completeSetup env) s))) = true
  /\ timerSec (timer (cells (exec (completeSetup env) s))) = timerSec (timer (cells s)).
Proof.
  intros [defined result] s H. unfold setup_preconditions in H.
  destruct_session s. simpl in H.
  destruct cam, mic, share; try discriminate.
  destruct defined, result; split; reflexivity.
Qed.

Lemma handle_keeps_timer : forall js_ge e,
  touches_timer e = false -> preserves timer_view (handle js_ge e).
Proof.
  intros js_ge e H. destruct e; try discriminate; clear H; unfold_handlers; preserve.
Qed.

Lemma connect_keeps_timer : preserves timer_view connect.
Proof. unfold_handlers. preserve. Qed.

Lemma idle_timer_effect : forall s,
  timerActive (timer (cells s)) = false -> exec timer_effect s = s.
Proof. intros s H. destruct_session s. simpl in H. subst. reflexivity. Qed.

Lemma idle_timer_timeout : forall s,
  timerActive (timer (cells s)) = false -> exec timer_timeout s = s.
Proof. intros s H. destruct_session s. simpl in H. subst. reflexivity. Qed.

Lemma timer_effect_setupComplete :
  preserves (fun s => setupComplete (setup (cells s))) timer_effect.
Proof. unfold_handlers. preserve. Qed.

Lemma timer_timeout_setupComplete :
  preserves (fun s => setupComplete (setup (cells s))) timer_timeout.
Proof. unfold_handlers. preserve. Qed.

Lemma waits_cases : forall s,
  timer_waits (timer_view s) = true ->
  setupComplete (setup (cells s)) = true
  \/ (timerSec (timer (cells s)) = TIMER_SEC /\ timerActive (timer (cells s)) = false).
Proof.
  intros s H. unfold timer_waits, timer_view in H. simpl in H.
  apply orb_true_iff in H as [H|H]; [now left|right].
  apply andb_true_iff in H as [H1 H2].
  apply Z.eqb_eq in H1. apply negb_true_iff in H2. now split.
Qed.

Lemma waits_of_setupComplete : forall s,
  setupComplete (setup (cells s)) = true -> timer_waits (timer_view s) = true.
Proof. intros s H. unfold timer_waits, timer_view. simpl. now rewrite H. Qed.

Lemma timer_effect_waits : forall s,
  timer_waits (timer_view s) = true ->
  timer_waits (timer_view (exec timer_effect s)) = true.
Proof.
  intros s H. destruct (waits_cases s H) as [Hc|[_ Ha]].
  - apply waits_of_setupComplete. unfold exec.
    now rewrite timer_effect_setupComplete.
  - now rewrite idle_timer_effect.
Qed.

Lemma timer_timeout_waits : forall s,
  timer_waits (timer_view s) = true ->
  timer_waits (timer_view (exec timer_timeout s)) = true.
Proof.
  intros s H. destruct (waits_cases s H) as [Hc|[_ Ha]].
  - apply waits_of_setupComplete. unfold exec.
    now rewrite timer_timeout_setupComplete.
  - now rewrite idle_timer_timeout.
Qed.

Lemma completeSetup_waits : forall env s,
  timer_waits (timer_view s) = true ->
  timer_waits (timer_view (exec (completeSetup env) s)) = true.
Proof.
  intros [defined result] s H. unfold timer_waits, timer_view in *.
  destruct_session s. simpl in H.
  destruct cam, mic, share, defined, result; try exact H; reflexivity.
Qed.

Lemma commit_waits : forall before s,
  timer_waits (timer_view s) = true ->
  timer_waits (timer_view (exec (commit before) s)) = true.
Proof.
  intros before.
  assert (K : forall A (c : M A), preserves timer_view c ->
              maintains (fun s => timer_waits (timer_view s) = true) c).
  { intros A c. apply maintains_preserved. intros s s' E H. now rewrite E. }
  assert (R : forall seen, preserves timer_view (rerender seen))
    by (intros seen; unfold rerender, release, close_opt, cleanupVoice; preserve).
  change (maintains (fun s => timer_waits (timer_view s) = true) (commit before)).
  unfold commit.
  apply maintains_bind; [apply K, R|]. intros _.
  apply maintains_bind; [apply maintains_look|]. intros shown. cbv zeta.
  apply maintains_bind.
  - apply maintains_when, K, preserves_bind; [apply connect_keeps_timer|].
    intros _. apply R.
  - intros _ s. apply timer_effect_waits.
Qed.

Lemma step_waits : forall js_ge s e,
  timer_waits (timer_view s) = true ->
  timer_waits (timer_view (step js_ge s e)) = true.
Proof.
  intros js_ge s e H. rewrite step_unfold.
  destruct (enabled e s); [|exact H].
  apply commit_waits.
  destruct (touches_timer e) eqn:T.
  - destruct e; try discriminate.
    + now apply completeSetup_waits.
    + now apply timer_timeout_waits.
  - unfold exec. now rewrite handle_keeps_timer.
Qed.

(** In every run of the page, as long as the setup is not complete the
    timer shows its budget and is not running. *)
Lemma timer_waits_for_setup : forall js_ge events,
  let s := run js_ge events initial in
  setupComplete (setup (cells s)) = false ->
  timerSec (timer (cells s)) = TIMER_SEC /\ timerActive (timer (cells s)) = false.
Proof.
  intros js_ge events s Hs.
  assert (H : timer_waits (timer_view s) = true).
  { apply run_invariant with (P := fun s => timer_waits (timer_view s) = true).
    - intros s0 e. apply step_waits.
    - reflexivity. }
  destruct (waits_cases s H) as [Hc|Hw]; [congruence | exact Hw].
Qed.

Lemma same_stream_refl : forall a, same_stream a a = true.
Proof. intros [[i n]|]; simpl; [|reflexivity]. now rewrite !Nat.eqb_refl. Qed.

Lemma same_inputs_eq : forall a b,
  media a = media b -> ws (conn a) = ws (conn b) -> same_inputs a b = true.
Proof.
  intros a b Hm Hw. unfold same_inputs. rewrite Hm, Hw, !same_stream_refl.
  now destruct (ws (conn b)).
Qed.

(** The event [Second] of the transition system is one [second]. *)
Lemma step_Second : forall js_ge s,
  step js_ge s Second = if timer_pending (cells s) then exec second s else s.
Proof.
  intros js_ge s. rewrite step_unfold. simpl enabled.
  destruct (timer_pending (cells s)) eqn:P; [|reflexivity].
  unfold second. rewrite exec_then by (unfold timer_timeout; totality).
  simpl handle. set (s1 := exec timer_timeout s).
  assert (E : (setupComplete (setup (cells s1)), jobId (conn (cells s1)),
               resumeId (conn (cells s1)), media (cells s1), ws (conn (cells s1)))
              = (setupComplete (setup (cells s)), jobId (conn (cells s)),
                 resumeId (conn (cells s)), media (cells s), ws (conn (cells s)))).
  { assert (K : preserves (fun s => (setupComplete (setup (cells s)),
                                     jobId (conn (cells s)),
                                     resumeId (conn (cells s)),
                                     media (cells s), ws (conn (cells s))))
                  timer_timeout)
      by (unfold timer_timeout; preserve).
    apply K. }
  injection E as E1 E2 E3 E4 E5.
  assert (I : same_inputs (cells s) (cells s1) = true)
    by (apply same_inputs_eq; congruence).
  unfold commit, rerender, exec, bind, look, gets. cbn beta iota.
  rewrite I. cbn [negb when ret fst snd]. unfold connectable.
  rewrite E1, E2, E3, andb_negb_r. reflexivity.
Qed.

(** C8, as the spec states it, fails when the socket is gone: the
    connection is lost, the timer runs out, and the session is marked
    ended although no end-of-session message was sent. *)
Lemma timer_expiry_on_closed_socket_sends_nothing :
  let s := run ge_num (to_session ++ [SocketClose 1006]) initial in
  let s' := run ge_num (repeat Second 600) s in
  timer_running (cells s) = true
  /\ timerSec (timer (cells s)) = 600%Z
  /\ timerSec (timer (cells s')) = 0%Z
  /\ interviewEndedByProctor (proctor (cells s')) = true
  /\ sent s' = sent s
  /\ count_end (sent s') = 0.
Proof. vm_compute. repeat split; reflexivity. Qed.

(** A second unmounts the page exactly when the timer effect that follows
    the timeout throws. *)
Lemma unmounts_Second : forall js_ge s,
  unmounts js_ge s Second
  = timer_pending (cells s) && negb (returns timer_effect (exec timer_timeout s)).
Proof.
  intros js_ge s. unfold unmounts. simpl enabled.
  destruct (timer_pending (cells s)) eqn:P; [|reflexivity].
  simpl handle. set (s1 := exec timer_timeout s). cbn [andb]. f_equal.
  assert (E : (setupComplete (setup (cells s1)), jobId (conn (cells s1)),
               resumeId (conn (cells s1)), media (cells s1), ws (conn (cells s1)))
              = (setupComplete (setup (cells s)), jobId (conn (cells s)),
                 resumeId (conn (cells s)), media (cells s), ws (conn (cells s)))).
  { assert (K : preserves (fun s => (setupComplete (setup (cells s)),
                                     jobId (conn (cells s)),
                                     resumeId (conn (cells s)),
                                     media (cells s), ws (conn (cells s))))
                  timer_timeout)
      by (unfold timer_timeout; preserve).
    apply K. }
  injection E as E1 E2 E3 E4 E5.
  assert (I : same_inputs (cells s) (cells s1) = true)
    by (apply same_inputs_eq; congruence).
  unfold returns, commit, rerender, exec, bind, look, gets. cbn beta iota.
  rewrite I. cbn [negb when ret fst snd]. unfold connectable.
  rewrite E1, E2, E3, andb_negb_r. reflexivity.
Qed.

Lemma last_second_unmounts : forall js_ge s,
  timer_running (cells s) = true ->
  unmounts js_ge (at_second 1 s) Second = socket_connecting s.
Proof.
  intros js_ge s H. rewrite unmounts_Second.
  unfold timer_running in H. destruct_session s. simpl in H.
  destruct st as [qc mq done]. simpl in H.
  destruct act, done, ended; try discriminate.
  destruct sock as [[]|], rs; reflexivity.
Qed.

Lemma seconds_599 : forall s,
  timer_running (cells s) = true ->
  timerSec (timer (cells s)) = TIMER_SEC ->
  seconds 599 s = at_second 1 s.
Proof.
  intros s H Hs.
  assert (E : s = at_second 600 s)
    by (rewrite <- (at_second_same s) at 1; now rewrite Hs).
  rewrite E at 1. rewrite seconds_count_down by (assumption || lia). reflexivity.
Qed.

(** The same while the socket is still connecting: [ws?.send] throws in
    the effect, after the timer was stopped; the session is not marked
    ended, nothing is sent, and the page is unmounted. *)
Lemma timer_expiry_on_connecting_socket_throws :
  let s := run ge_num (repeat Second 599) still_connecting in
  let s' := step ge_num s Second in
  socket_connecting still_connecting = true
  /\ timer_running (cells s) = true
  /\ timerSec (timer (cells s)) = 1%Z
  /\ unmounts ge_num s Second = true
  /\ timerSec (timer (cells s')) = 0%Z
  /\ timerActive (timer (cells s')) = false
  /\ interviewEndedByProctor (proctor (cells s')) = false
  /\ shown_error s' = None
  /\ count_end (sent s') = 0.
Proof. vm_compute. repeat split; reflexivity. Qed.

(** C8 (amended).  The budget is 600 seconds, and in every run the timer
    shows it, stopped, as long as the setup is not complete;
    [completeSetup] starts the timer without touching the count.  While
    the session is running, each second takes one off and sends nothing.
    The second that brings the count to 0 stops the timer, once, and the
    count stays at 0.  Unless the protocol socket is still connecting,
    that second marks the session ended and shows "Interview ended: Time
    limit reached."; it sends the end-of-session message, once, if the
    socket is open, and nothing if there is no socket or the socket is
    closing or closed.  On a socket that is still connecting the send
    throws in the effect, which unmounts the page: nothing is sent, the
    session is not marked ended and no message is set.  In a session that
    is complete or ended, the timer does nothing. *)
Theorem session_timer_counts_down_and_expires_once :
  TIMER_SEC = 600%Z
  /\ (forall js_ge events,
        let s := run js_ge events initial in
        setupComplete (setup (cells s)) = false ->
        timerSec (timer (cells s)) = TIMER_SEC
        /\ timerActive (timer (cells s)) = false)
  /\ (forall env s,
        setup_preconditions s = true ->
        timerActive (timer (cells (exec (completeSetup env) s))) = true
        /\ timerSec (timer (cells (exec (completeSetup env) s)))
           = timerSec (timer (cells s)))
  /\ (forall s,
        timer_running (cells s) = true ->
        timerSec (timer (cells s)) = TIMER_SEC ->
        (forall k, (k < 600)%nat ->
           timerSec (timer (cells (seconds k s))) = (600 - Z.of_nat k)%Z
           /\ timer_running (cells (seconds k s)) = true
           /\ sent (seconds k s) = sent s)
        /\ returns second (seconds 599 s) = negb (socket_connecting s)
        /\ (forall js_ge,
              unmounts js_ge (seconds 599 s) Second = socket_connecting s)
        /\ (forall n,
              let s' := seconds (600 + n) s in
              timerSec (timer (cells s')) = 0%Z
              /\ timerActive (timer (cells s')) = false
              /\ interviewEndedByProctor (proctor (cells s'))
                 = negb (socket_connecting s)
              /\ shown_error s'
                 = (if socket_connecting s then shown_error s
                    else Some (str "Interview ended: Time limit reached."))
              /\ sent s' = sent s ++ (if socket_open s then [end_interview] else [])))
  /\ (forall s,
        over (cells s) = true ->
        exec timer_effect s = s /\ exec second s = s).
Proof.
  split; [reflexivity|]. split; [apply timer_waits_for_setup|].
  split; [apply completeSetup_starts_the_timer|].
  split; [|apply second_when_over].
  intros s H Hs.
  destruct (timer_runs_from_the_budget s H Hs) as (Hdown & Hthrow & Hup).
  split; [exact Hdown|]. split; [exact Hthrow|]. split; [|exact Hup].
  intros js_ge. rewrite (seconds_599 s H Hs). now apply last_second_unmounts.
Qed.

Lemma session_timer_witness :
  timerSec (timer (cells at_ready)) = 600%Z
  /\ timerActive (timer (cells (exec (completeSetup fullscreen_allowed) at_ready))) = true
  /\ timerSec (timer (cells (seconds 1 in_session))) = 599%Z
  /\ sent (seconds 600 in_session) = sent in_session ++ [end_interview]
  /\ sent (seconds 601 in_session) = sent in_session ++ [end_interview]
  /\ interviewEndedByProctor (proctor (cells (seconds 600 in_session))) = true
  /\ returns second (seconds 599 still_connecting) = false
  /\ unmounts ge_num (seconds 599 still_connecting) Second = true
  /\ interviewEndedByProctor (proctor (cells (seconds 600 still_connecting))) = false
  /\ timerActive (timer (cells (seconds 600 still_connecting))) = false
  /\ sent (seconds 600 still_connecting) = sent still_connecting
  /\ exec second (exec (setInterviewEndedByProctor true) in_session)
     = exec (setInterviewEndedByProctor true) in_session.
Proof.
  destruct session_timer_counts_down_and_expires_once
    as (_ & Hwait & Hstart & Hrun & Hover).
  destruct (Hrun in_session eq_refl eq_refl) as (Hdown & _ & _ & Hup).
  destruct (Hrun still_connecting eq_refl eq_refl) as (_ & Hthrow & Hun & Hc).
  destruct (Hup 0%nat) as (_ & _ & U3 & _ & U5).
  destruct (Hup 1%nat) as (_ & _ & _ & _ & V5).
  destruct (Hc 0%nat) as (_ & C2 & C3 & _ & C5).
  split; [exact (proj1 (Hwait ge_num to_ready eq_refl))|].
  split; [exact (proj1 (Hstart fullscreen_allowed at_ready eq_refl))|].
  split; [exact (proj1 (Hdown 1%nat ltac:(lia)))|].
  split; [exact U5|]. split; [exact V5|]. split; [exact U3|].
  split; [exact Hthrow|]. split; [exact (Hun ge_num)|].
  split; [exact C3|]. split; [exact C2|].
  split; [exact (eq_trans C5 (app_nil_r (sent still_connecting)))|].
  exact (proj2 (Hover (exec (setInterviewEndedByProctor true) in_session) eq_refl)).
Defined.

(** ** Testing a voice *)

Lemma testVoice_click_spec : forall w s,
  selectedVoice (voice (cells (exec (testVoice_click w) s))) = Some w
  /\ test_timers (world (exec (testVoice_click w) s))
     = test_timers (world s) ++ [test_closure s].
Proof. intros w s. split; reflexivity. Qed.

(** Whenever the timer of a test fires, the selection it leaves is the one
    it captured. *)
Lemma testVoice_body_restores : forall cl env s1,
  selectedVoice (voice (cells (spoken (exec (testVoice_body cl env) s1))))
  = originalVoice cl.
Proof.
  intros [original seen] [key fetch play synth] s1. destruct_session s1.
  destruct seen, key, fetch, play, synth; reflexivity.
Qed.

(** The test leaves every cell as it found it, a playback that was in
    progress at the click having come to its end. *)
Lemma testVoice_cells : forall w env s,
  cells (spoken (exec (testVoice_body (test_closure s) env) (exec (testVoice_click w) s)))
  = cells (spoken s).
Proof.
  intros w [key fetch play synth] s. destruct_session s.
  destruct sel, key, fetch, play, synth, spk; reflexivity.
Qed.

(** C9.  A test of voice [w] selects [w], and its timer, once the phrase
    has been spoken, selects again the voice that was selected at the
    click, whatever happened in between.  When nothing else happened,
    every cell of the page is as before the click: the selection is
    restored and nothing else has changed, except that a playback that was
    in progress at the click is over. *)
Theorem testVoice_is_a_round_trip :
  forall (w : ElevenLabsVoice) (env : SpeakEnv) (s : Session),
    let clicked := exec (testVoice_click w) s in
    let done := spoken (exec (testVoice_body (test_closure s) env) clicked) in
    selectedVoice (voice (cells clicked)) = Some w
    /\ test_timers (world clicked) = test_timers (world s) ++ [test_closure s]
    /\ selectedVoice (voice (cells done)) = selectedVoice (voice (cells s))
    /\ cells done = cells (spoken s)
    /\ (if isSpeaking (voice (cells s)) then True else cells done = cells s)
    /\ (forall s1 : Session,
          selectedVoice
            (voice (cells (spoken (exec (testVoice_body (test_closure s) env) s1))))
          = selectedVoice (voice (cells s))).
Proof.
  intros w env s clicked done.
  destruct (testVoice_click_spec w s) as [Hsel Htimers].
  split; [exact Hsel|]. split; [exact Htimers|].
  split; [exact (testVoice_body_restores (test_closure s) env clicked)|].
  split; [apply testVoice_cells|].
  split.
  - destruct (isSpeaking (voice (cells s))) eqn:E; [exact I|].
    unfold done, clicked. rewrite testVoice_cells. unfold spoken. now rewrite E.
  - intros s1. exact (testVoice_body_restores (test_closure s) env s1).
Qed.

(** The interview voice is selected; the candidate tests another voice,
    which the provider plays; the interview voice is selected again and
    every cell is as before. *)
Lemma testVoice_example :
  let s := exec loadVoices initial in
  let clicked := exec (testVoice_click domi) s in
  let done := spoken (exec (testVoice_body (test_closure s) provider_plays) clicked) in
  selectedVoice (voice (cells s)) = Some getInterviewVoice
  /\ selectedVoice (voice (cells clicked)) = Some domi
  /\ selectedVoice (voice (cells done)) = Some getInterviewVoice
  /\ cells done = cells s.
Proof. vm_compute. repeat split; reflexivity. Qed.

(** * Further properties of the page and of its services *)

(** ** The clock *)

Lemma below_bound : forall (P : Z -> Prop) (check : Z -> bool) (bound : Z),
  (forall t, check t = true -> P t) ->
  forallb (fun k => check (Z.of_nat k)) (seq 0 (Z.to_nat bound)) = true ->
  forall t, (0 <= t < bound)%Z -> P t.
Proof.
  intros P check bound Hc Hall t Ht. apply Hc.
  rewrite forallb_forall in Hall.
  rewrite <- (Z2Nat.id t) by lia. apply Hall. apply in_seq. lia.
Qed.

Lemma timerDisplay_round_trip : forall t : Z,
  (0 <= t < 6000)%Z ->
  List.length (timerDisplay t) = 5%nat /\ read_display (timerDisplay t) = Some t.
Proof.
  apply (@below_bound
           (fun t => List.length (timerDisplay t) = 5%nat
                     /\ read_display (timerDisplay t) = Some t)
           (fun t => Nat.eqb (List.length (timerDisplay t)) 5
                     && match read_display (timerDisplay t) with
                        | Some r => Z.eqb r t
                        | None => false
                        end) 6000%Z).
  - intros t H. apply andb_true_iff in H as [H1 H2].
    apply Nat.eqb_eq in H1. split; [exact H1|].
    destruct (read_display (timerDisplay t)); [|discriminate].
    apply Z.eqb_eq in H2. now subst.
  - vm_compute. reflexivity.
Qed.

(** X1.  For every count of seconds below one hundred minutes, the clock
    has five characters, MM:SS, and reads back as that count. *)
Theorem timerDisplay_reads_back : forall t : Z,
  (0 <= t < 6000)%Z ->
  List.length (timerDisplay t) = 5%nat /\ read_display (timerDisplay t) = Some t.
Proof. exact timerDisplay_round_trip. Qed.

Lemma timerDisplay_reads_back_witness :
  (0 <= 600 < 6000)%Z
  /\ List.length (timerDisplay 600) = 5%nat
  /\ read_display (timerDisplay 600) = Some 600%Z.
Proof. split; [lia|]. apply (@timerDisplay_reads_back 600). lia. Defined.

(** ** The timer in a run *)

Lemma handle_keeps_clock : forall js_ge e,
  match e with Second => false | _ => true end = true ->
  preserves clock (handle js_ge e).
Proof.
  intros js_ge e H. destruct e; try discriminate; clear H; unfold_handlers; preserve.
Qed.

Lemma commit_keeps_clock : forall before, preserves clock (commit before).
Proof. intros before. unfold_handlers. preserve. Qed.

Lemma step_keeps_clock_in_range : forall js_ge bound s e,
  (0 <= clock s <= bound)%Z -> (0 <= clock (step js_ge s e) <= bound)%Z.
Proof.
  intros js_ge bound s e H. rewrite step_unfold.
  destruct (enabled e s) eqn:En; [|exact H].
  unfold exec. rewrite commit_keeps_clock.
  destruct e; try (rewrite handle_keeps_clock by reflexivity; exact H).
  simpl handle. unfold clock, timer_timeout, bind, look, gets, when in *. simpl.
  destruct (timer_pending (cells s)) eqn:P; [|exact H].
  simpl. unfold timer_pending in P. apply andb_true_iff in P as [_ P].
  apply negb_true_iff, Z.leb_gt in P. lia.
Qed.

(** X2.  In every run of the page the count of the timer stays between 0
    and the budget of 600 seconds, so that the clock always shows it as
    MM:SS; and whatever happens next, the count never goes up again: the
    timer is never reset or extended. *)
Theorem timer_stays_in_range : forall js_ge (events more : list Event),
  let t := timerSec (timer (cells (run js_ge events initial))) in
  let t' := timerSec (timer (cells (run js_ge more (run js_ge events initial)))) in
  (0 <= t' <= t)%Z /\ (t <= 600)%Z
  /\ read_display (timerDisplay t) = Some t.
Proof.
  intros js_ge events more t t'.
  assert (H : (0 <= t <= TIMER_SEC)%Z).
  { apply run_invariant with (P := fun s => (0 <= clock s <= TIMER_SEC)%Z).
    - intros s e. apply step_keeps_clock_in_range.
    - cbv [clock initial initial_cells cells timer timerSec TIMER_SEC]. lia. }
  assert (H' : (0 <= t' <= t)%Z).
  { apply run_invariant with (P := fun s => (0 <= clock s <= t)%Z).
    - intros s e. apply step_keeps_clock_in_range.
    - unfold clock. fold t. lia. }
  unfold TIMER_SEC in H. split; [exact H'|]. split; [lia|].
  apply timerDisplay_round_trip. lia.
Qed.

(** ** Starting the capture *)

(** X3.  Without a microphone stream or without an open socket,
    [startListening] does nothing at all. *)
Theorem startListening_needs_microphone_and_socket :
  forall (env : ListenEnv) (s : Session),
    is_some (audioStream (media (cells s))) && socket_open s = false ->
    exec (startListening env) s = s /\ returns (startListening env) s = true.
Proof.
  intros env s H. unfold startListening, returns.
  rewrite !exec_look. erewrite exec_bind by apply ws_is_open_run.
  unfold exec, bind, look, gets. simpl. rewrite ws_is_open_run. simpl.
  rewrite <- negb_andb, H. simpl. split; reflexivity.
Qed.

Lemma startListening_needs_microphone_witness :
  exec (startListening listen_ok) at_ready = at_ready
  /\ returns (startListening listen_ok) at_ready = true.
Proof.
  apply (@startListening_needs_microphone_and_socket listen_ok at_ready).
  reflexivity.
Defined.



(** ** The token endpoint *)

(** X5.  The endpoint never throws and answers 200 or 500.  It answers
    200 exactly when the key is set, the client is built without an
    exception and the provider gives a grant with a result and without
    error; the body then carries no error, and its token is the access
    token of that grant.  Every failure is a 500 that carries no token and
    an error message: "Deepgram API key not configured" without a key;
    the message of the provider for a grant with an error; "Failed to
    generate Deepgram token" when building the client or asking for the
    grant throws, and for a grant without result. *)
Theorem GET_answers_a_token_or_an_error : forall env : TokenEnv,
  let r := GET env in
  let failed := Some (u16 "Failed to generate Deepgram token") in
  (route_status r = 200%Z
   /\ string_field "error" (route_body r) = None
   /\ truthy_string (DEEPGRAM_API_KEY env) = true
   /\ createClient_throws env = None
   /\ exists granted,
        grantToken env = inr {| grant_error := None; grant_result := Some granted |}
        /\ string_field "token" (route_body r) = granted)
  \/ (route_status r = 500%Z
      /\ string_field "token" (route_body r) = None
      /\ (exists msg, string_field "error" (route_body r) = Some msg)
      /\ if truthy_string (DEEPGRAM_API_KEY env)
         then match createClient_throws env, grantToken env with
              | Some _, _ | None, inl _ =>
                  string_field "error" (route_body r) = failed
              | None, inr answer =>
                  match grant_error answer with
                  | Some msg => string_field "error" (route_body r) = Some msg
                  | None => grant_result answer = None
                            /\ string_field "error" (route_body r) = failed
                  end
              end
         else string_field "error" (route_body r)
              = Some (u16 "Deepgram API key not configured")).
Proof.
  intros [[[|c key]|] [e|] [e1|[[msg|] [[t|]|]]]]; cbv -[u16 str_eqb];
    first [ right; repeat split; eexists; reflexivity
          | left; repeat split; eexists; split; reflexivity ].
Qed.

(** X6.  [startListening] in front of the endpoint.  When the endpoint
    grants a usable token the setup goes on to the recorder.  When it
    does not, the page makes no further call after the fetch, is not
    listening and shows "HTTP 500", or "No token received" for a 200
    whose token is missing or empty. *)
Theorem startListening_with_the_endpoint :
  forall (tenv : TokenEnv) (env : ListenEnv) (s : Session),
    is_some (audioStream (media (cells s))) = true ->
    socket_open s = true ->
    let s' := exec (startListening (with_endpoint tenv env)) s in
    match grants tenv with
    | Some _ => token_received (with_endpoint tenv env) = true
    | None =>
        token_received (with_endpoint tenv env) = false
        /\ calls (world s') = calls (world (exec cleanupVoice s)) ++ [FetchToken]
        /\ isListening (voice (cells s')) = false
        /\ shown_error s'
           = Some (JStr (u16 "Could not start voice recognition. "
                         ++ (if Z.eqb (route_status (GET tenv)) 200
                             then u16 "No token received" else u16 "HTTP 500")))
    end.
Proof.
  intros tenv [tf rstream its nmr ll] s Hmic Hopen s'. subst s'.
  unfold socket_open in Hopen. destruct_session s. simpl in Hmic, Hopen.
  destruct aud; [|discriminate].
  destruct sock as [[]|]; [|discriminate]. destruct rs; try discriminate.
  destruct tenv as [[[|c key]|] [e|] [e1|[[msg|] [[[|c1 t]|]|]]]];
    destruct rcd, dg; vm_compute; repeat split; reflexivity.
Qed.

Lemma startListening_with_the_endpoint_witness :
  let s' := exec (startListening (with_endpoint endpoint_without_key listen_ok))
              in_session in
  token_received (with_endpoint endpoint_without_key listen_ok) = false
  /\ calls (world s') = calls (world (exec cleanupVoice in_session)) ++ [FetchToken]
  /\ isListening (voice (cells s')) = false
  /\ shown_error s'
     = Some (JStr (u16 "Could not start voice recognition. " ++ u16 "HTTP 500")).
Proof.
  apply (@startListening_with_the_endpoint endpoint_without_key listen_ok in_session);
    reflexivity.
Defined.

(** ** Speaking a text *)

(** X7.  [speakText] never throws on a string.  A blank text changes
    nothing.  Otherwise the provider is asked only when it has a key and a
    voice is selected; whenever it does not speak the text to the end, the
    local synthesis speaks it, if the browser has one.  The page shows
    itself as speaking only while the local synthesis speaks after a
    provider that did not get as far as the playback: after a playback
    that failed, the local synthesis speaks while the page does not show
    it.  Nothing is sent and no error is shown. *)
Theorem speakText_falls_back_to_the_browser :
  forall (selected : option ElevenLabsVoice) (env : SpeakEnv) (t : jsstring)
         (s : Session),
    let s' := exec (speakText selected env (JStr t)) s in
    returns (speakText selected env (JStr t)) s = true
    /\ if nonempty (trim t)
       then
         calls (world s')
         = calls (world s) ++ provider_calls selected env t
           ++ (if negb (provider_spoke selected env) && speechSynthesis_defined env
               then [SynthCancel; SynthSpeak t] else [])
         /\ isSpeaking (voice (cells s'))
            = negb (provider_spoke selected env) && negb (playback_failed selected env)
              && speechSynthesis_defined env
         /\ sent s' = sent s
         /\ shown_error s' = shown_error s
       else s' = s.
Proof.
  intros selected [key fetch play synth] t s s'. subst s'.
  unfold speakText, returns.
  destruct (nonempty (trim t)); [|split; reflexivity].
  destruct_session s.
  destruct selected, key as [|k key], fetch, play, synth;
    cbv -[app]; rewrite <- ?app_assoc; simpl; rewrite ?app_nil_r;
    repeat split; reflexivity.
Qed.

(** ** Asking for the camera and the microphone *)

(** X8.  [requestPermissions] never throws.  A refusal
    ([NotAllowedError]) of the camera or of the microphone marks both as
    denied and shows the error; when it is the microphone that is
    refused, the camera stream that was just acquired stays in its cell.
    Any other failure (no device, for one) shows nothing: after a camera
    failure the page is as it was, after a microphone failure the camera
    is granted and the step has not moved. *)
Theorem requestPermissions_on_failure :
  forall (env : PermissionsEnv) (s : Session),
    let s' := exec (requestPermissions env) s in
    let c' := cells s' in
    returns (requestPermissions env) s = true
    /\ match camera env, microphone env with
       | inl e, _ =>
           if is_denial e
           then cameraPermission (setup c') = denied
                /\ micPermission (setup c') = denied
                /\ shown_error s' = Some permissions_required
                /\ media c' = media (cells s)
                /\ setupStep (setup c') = setupStep (setup (cells s))
           else s' = s
       | inr v, inl e =>
           videoStream (media c') = Some v
           /\ audioStream (media c') = audioStream (media (cells s))
           /\ setupStep (setup c') = setupStep (setup (cells s))
           /\ if is_denial e
              then cameraPermission (setup c') = denied
                   /\ micPermission (setup c') = denied
                   /\ shown_error s' = Some permissions_required
              else cameraPermission (setup c') = granted
                   /\ micPermission (setup c') = micPermission (setup (cells s))
                   /\ shown_error s' = shown_error s
       | inr v, inr a =>
           videoStream (media c') = Some v
           /\ audioStream (media c') = Some a
           /\ cameraPermission (setup c') = granted
           /\ micPermission (setup c') = granted
           /\ shown_error s' = shown_error s
       end.
Proof.
  intros [cam_ mic_ mounted] s s' c'. subst c' s'.
  unfold is_denial, returns. destruct_session s.
  destruct cam_ as [e|v], mic_ as [e1|a], mounted; simpl camera; simpl microphone;
    try (destruct (instanceof_Error e && str_eqb (exn_name e) (u16 "NotAllowedError"))
           eqn:D);
    try (destruct (instanceof_Error e1 && str_eqb (exn_name e1) (u16 "NotAllowedError"))
           eqn:D1);
    cbv -[str_eqb u16 andb instanceof_Error exn_name];
    rewrite ?D, ?D1; repeat split; reflexivity.
Qed.

(** ** Properties that a run keeps *)

Section MaintainsMore.
Variable P : Session -> Prop.

Lemma maintains_try_catch : forall A (c : M A) (h : Exn -> M A),
  maintains P c -> (forall e, maintains P (h e)) -> maintains P (try_catch c h).
Proof.
  intros A c h Hc Hh s H. unfold try_catch.
  specialize (Hc s H). destruct (c s) as [[a|e] s1]; simpl in *.
  - exact Hc.
  - now apply Hh.
Qed.

Lemma maintains_await : forall A (p : Exn + A), maintains P (await p).
Proof. now intros A [e|a] s. Qed.

Lemma maintains_raise_if : forall e, maintains P (raise_if e).
Proof. now intros [e|] s. Qed.

Lemma maintains_detached : forall c, maintains P c -> maintains P (detached c).
Proof.
  intros c Hc. apply maintains_try_catch; [exact Hc|]. intros e. apply maintains_ret.
Qed.

End MaintainsMore.

(** A write that leaves the view [f] alone keeps every property of it. *)
Lemma maintains_view : forall A B (f : Session -> B) (Q : B -> Prop) (c : M A),
  preserves f c -> maintains (fun s => Q (f s)) c.
Proof. intros A B f Q c Hc s H. unfold preserves in Hc. now rewrite Hc. Qed.

(** Decomposes a goal [maintains (fun s => Q (f s)) c] along the structure
    of [c]; [special] closes the leaves that change the view [f]. *)
Ltac maintain special :=
  repeat (try progress cbv zeta;
          first
            [ special
            | lazymatch goal with
              | |- maintains _ (bind _ _) => apply maintains_bind; [|intros ?]
              | |- maintains _ (ret _) => apply maintains_ret
              | |- maintains _ (throw _) => apply maintains_throw
              | |- maintains _ (gets _) => apply maintains_gets
              | |- maintains _ (look _) => apply maintains_look
              | |- maintains _ (await _) => apply maintains_await
              | |- maintains _ (raise_if _) => apply maintains_raise_if
              | |- maintains _ (try_catch _ _) =>
                  apply maintains_try_catch; [|intros ?]
              | |- maintains _ (detached _) => apply maintains_detached
              | |- maintains _ (when _ _) => apply maintains_when
              | |- maintains _ (match ?x with _ => _ end) => destruct x
              | |- maintains _ _ =>
                  first [ (apply maintains_view; intros ?; reflexivity)
                        | progress unfold enterFullscreen, onopen, connect
                        | progress unfold close_opt, send_opt, send ]
              end ]).

(** The handlers, down to the operations of the socket. *)
Ltac unfold_to_socket :=
  unfold handle, commit, rerender, release, connectable,
    timer_effect,
    init_params, loadVoices,
    requestPermissions, testVoice_click, testVoice_timer, testVoice_body,
    startScreenShare, completeSetup, enterFullscreen, screen_track_ended,
    onended_body,
    onmessage, onclose, onerror, utterance_settled, stopListening,
    startListening, cleanupVoice, on_transcript, handleFullscreenChange,
    return_to_fullscreen, onVisibilityChange, timer_timeout, end_click,
    speakText, textToSpeech, playAudio, send_if_open,
    ws_is_open, field, type_includes_screen_share, enterFullscreen.

Lemma send_keeps_announced : forall sock frame,
  maintains (fun s => announced_first (wire_view s)) (send sock frame).
Proof.
  intros sock frame s H. unfold announced_first, wire_view, send in *.
  unfold bind, gets. simpl in *.
  destruct (readyState (world s)) eqn:R; simpl; rewrite ?R; try exact H.
  destruct (wire (world s)) as [|f r]; [contradiction|exact H].
Qed.

Lemma send_opt_keeps_announced : forall w frame,
  maintains (fun s => announced_first (wire_view s)) (send_opt w frame).
Proof.
  intros [sock|] frame; [apply send_keeps_announced | apply maintains_ret].
Qed.

Lemma not_open_keeps_announced : forall r,
  r <> OPEN ->
  maintains (fun s => announced_first (wire_view s)) (set_readyState r).
Proof.
  intros r Hr s H. unfold announced_first, wire_view in *. simpl in *.
  destruct (wire (world s)); [exact Hr | exact H].
Qed.

Lemma onopen_keeps_announced :
  maintains (fun s => announced_first (wire_view s)) onopen.
Proof.
  intros s H. unfold announced_first, wire_view in *. destruct_session s.
  simpl in H. destruct wi; [reflexivity | exact H].
Qed.

Ltac announced :=
  idtac;
  lazymatch goal with
  | |- maintains _ (send _ _) => apply send_keeps_announced
  | |- maintains _ (send_opt _ _) => apply send_opt_keeps_announced
  | |- maintains _ onopen => apply onopen_keeps_announced
  | |- maintains _ (set_readyState _) => apply not_open_keeps_announced; discriminate
  end.

Lemma handle_keeps_announced : forall js_ge e,
  maintains (fun s => announced_first (wire_view s)) (handle js_ge e).
Proof.
  intros js_ge e. destruct e; unfold_to_socket; maintain announced.
Qed.

Lemma commit_keeps_announced : forall before,
  maintains (fun s => announced_first (wire_view s)) (commit before).
Proof.
  intros before. unfold_to_socket. unfold connect, close_opt. maintain announced.
Qed.

(** X9.  In every run of the page, nothing is sent on the protocol socket
    before it has opened, and the first frame that is ever sent is the
    announcement that the screen share has started. *)
Theorem first_frame_announces_the_screen_share : forall js_ge events,
  let s := run js_ge events initial in
  match sent s with
  | [] => readyState (world s) <> OPEN
  | frame :: _ => frame = screen_share_frame "started"
  end.
Proof.
  intros js_ge events.
  apply run_invariant with (P := fun s => announced_first (wire_view s)).
  - intros s e H. rewrite step_unfold. destruct (enabled e s); [|exact H].
    apply commit_keeps_announced, handle_keeps_announced, H.
  - cbv. discriminate.
Qed.

(** ** After the socket has closed *)

Lemma send_hung_up : forall w sock frame,
  maintains (fun s => hung_up w (line_view s)) (send sock frame).
Proof.
  intros w sock frame s H. unfold hung_up, line_view, send in *.
  injection H as Hw Hr Hc Hi. unfold bind, gets. simpl. rewrite Hr. simpl.
  now rewrite Hw, Hr, Hc, Hi.
Qed.

Lemma send_opt_hung_up : forall w sock frame,
  maintains (fun s => hung_up w (line_view s)) (send_opt sock frame).
Proof. intros w [sock|] frame; [apply send_hung_up | apply maintains_ret]. Qed.

Lemma close_opt_hung_up : forall w sock,
  maintains (fun s => hung_up w (line_view s)) (close_opt sock).
Proof.
  intros w [sock|]; [|apply maintains_ret].
  intros s H. unfold hung_up, line_view, close_opt in *.
  injection H as Hw Hr Hc Hi. unfold bind, gets. simpl. rewrite Hr. simpl.
  now rewrite Hw, Hr, Hc, Hi.
Qed.

Lemma setSetupComplete_hung_up : forall w,
  maintains (fun s => hung_up w (line_view s)) (setSetupComplete true).
Proof.
  intros w s H. unfold hung_up, line_view, connectable in *. simpl in *.
  injection H as Hw Hr Hc Hi. rewrite Hw, Hr, Hi.
  apply andb_true_iff in Hc as [Hc H3]. apply andb_true_iff in Hc as [_ H2].
  now rewrite H2, H3.
Qed.

Lemma closed_hung_up : forall w,
  maintains (fun s => hung_up w (line_view s)) (set_readyState CLOSED).
Proof.
  intros w s H. unfold hung_up, line_view in *. simpl in *.
  injection H as Hw Hr Hc Hi. now rewrite Hw, Hc, Hi.
Qed.

Lemma disconnected_hung_up : forall w,
  maintains (fun s => hung_up w (line_view s)) (setIsConnected false).
Proof.
  intros w s H. unfold hung_up, line_view in *. simpl in *.
  injection H as Hw Hr Hc Hi. unfold connectable in *. simpl. now rewrite Hw, Hr, Hc.
Qed.

Ltac hung :=
  idtac;
  lazymatch goal with
  | |- maintains _ (send _ _) => apply send_hung_up
  | |- maintains _ (send_opt _ _) => apply send_opt_hung_up
  | |- maintains _ (close_opt _) => apply close_opt_hung_up
  | |- maintains _ (setSetupComplete true) => apply setSetupComplete_hung_up
  | |- maintains _ (set_readyState CLOSED) => apply closed_hung_up
  | |- maintains _ (setIsConnected false) => apply disconnected_hung_up
  | |- maintains _ (when (_ && false) _) => rewrite andb_false_r; apply maintains_ret
  end.

Lemma handle_hung_up : forall js_ge w e,
  match e with
  | ParamsResolved _ _ | SocketOpen | SocketClosing => false
  | _ => true
  end = true ->
  maintains (fun s => hung_up w (line_view s)) (handle js_ge e).
Proof.
  intros js_ge w e H. destruct e; try discriminate; clear H;
    unfold_to_socket; maintain hung.
Qed.

Lemma step_hung_up : forall js_ge w s e,
  hung_up w (line_view s) -> hung_up w (line_view (step js_ge s e)).
Proof.
  intros js_ge w s e H. rewrite step_unfold.
  destruct (enabled e s) eqn:En; [|exact H].
  assert (C : maintains (fun s => hung_up w (line_view s)) (commit (cells s))).
  { unfold commit.
    assert (Hc : connectable (cells s) = true) by (now injection H).
    rewrite Hc. cbn [negb]. unfold_to_socket. maintain hung. }
  apply C. clear C.
  assert (Hr : readyState (world s) = CLOSED) by (now injection H).
  assert (Hc : connectable (cells s) = true) by (now injection H).
  destruct e; try (apply handle_hung_up; [reflexivity | exact H]).
  - (* the parameters have arrived already *)
    simpl in En. unfold connectable in Hc.
    destruct (nonempty (jobId (conn (cells s)))); [discriminate|].
    rewrite andb_false_r in Hc. discriminate.
  - (* a closed socket does not open *)
    unfold enabled in En. rewrite Hr in En. simpl in En.
    rewrite andb_false_r in En. discriminate.
  - (* nor does it start to close *)
    unfold enabled in En. rewrite Hr in En. simpl in En.
    rewrite !andb_false_r in En. discriminate.
Qed.

Lemma run_keeps_stopped : forall js_ge events,
  track_stopped (share_view (run js_ge events initial)) = true.
Proof.
  intros js_ge events.
  apply run_invariant with (P := fun s => track_stopped (share_view s) = true).
  - intros s e. apply step_keeps_stopped.
  - reflexivity.
Qed.

Lemma not_closed_is_held : forall r,
  r <> CLOSED -> maintains (fun s => closed_is_held (socket_view s)) (set_readyState r).
Proof. intros r Hr s _ H. simpl in H. contradiction. Qed.

Lemma setWs_is_held : forall sock,
  maintains (fun s => closed_is_held (socket_view s)) (setWs (Some sock)).
Proof.
  intros sock s H. unfold closed_is_held, socket_view in *. simpl in *.
  intros E. destruct (H E) as [_ Hc]. now split.
Qed.

Lemma onopen_is_held : maintains (fun s => closed_is_held (socket_view s)) onopen.
Proof.
  intros s _. unfold closed_is_held, socket_view. destruct_session s.
  cbv. discriminate.
Qed.

Ltac held :=
  idtac;
  lazymatch goal with
  | |- maintains _ (set_readyState CLOSED) => fail
  | |- maintains _ (set_readyState _) => apply not_closed_is_held; discriminate
  | |- maintains _ (setWs (Some _)) => apply setWs_is_held
  | |- maintains _ onopen => apply onopen_is_held
  end.

Lemma step_closed_is_held : forall js_ge s e,
  closed_is_held (socket_view s) -> closed_is_held (socket_view (step js_ge s e)).
Proof.
  intros js_ge s e H. rewrite step_unfold.
  destruct (enabled e s) eqn:En; [|exact H].
  assert (C : maintains (fun s => closed_is_held (socket_view s)) (commit (cells s)))
    by (unfold_to_socket; maintain held).
  apply C. clear C.
  assert (K : forall e',
             match e' with SocketClose _ => false | _ => true end = true ->
             maintains (fun s => closed_is_held (socket_view s)) (handle js_ge e'))
    by (intros e' He; destruct e'; try discriminate; unfold_to_socket; maintain held).
  destruct e; try (apply K; [reflexivity | exact H]).
  unfold enabled in En.
  destruct (is_some (ws (conn (cells s)))) eqn:W; [|discriminate].
  unfold closed_is_held, socket_view, exec, handle, onclose, bind, when. simpl.
  destruct (negb (code =? 1000)%Z); simpl; rewrite W; intros _; now split.
Qed.

Lemma closed_socket_is_connectable : forall js_ge events,
  let s := run js_ge events initial in
  readyState (world s) = CLOSED ->
  connectable (cells s) = true /\ isConnected (conn (cells s)) = false.
Proof.
  intros js_ge events s Hr.
  assert (H : closed_is_held (socket_view s)).
  { apply run_invariant with (P := fun s => closed_is_held (socket_view s)).
    - intros x e. apply step_closed_is_held.
    - intros E. discriminate E. }
  destruct (H Hr) as [Hh Hi]. split; [|exact Hi].
  pose proof (run_keeps_stopped js_ge events) as T.
  fold s in T. unfold track_stopped, share_view in T. rewrite Hh in T.
  now apply andb_true_iff in T as [_ T].
Qed.

(** X10.  Once the protocol socket has closed in a run of the page,
    whatever happens next, no frame is sent any more and the socket stays
    closed: the page does not connect again, and the microphone and end
    buttons stay disabled. *)
Theorem nothing_is_sent_after_the_close :
  forall js_ge (events more : list Event),
    let s := run js_ge events initial in
    readyState (world s) = CLOSED ->
    let s' := run js_ge more s in
    sent s' = sent s
    /\ readyState (world s') = CLOSED
    /\ (forall env, enabled (ClickMic env) s' = false)
    /\ (forall confirmed, enabled (ClickEnd confirmed) s' = false).
Proof.
  intros js_ge events more s Hr s'.
  destruct (closed_socket_is_connectable js_ge events Hr) as [Hc Hi].
  assert (H : hung_up (sent s) (line_view s')).
  { apply run_invariant with (P := fun x => hung_up (sent s) (line_view x)).
    - intros x e. apply step_hung_up.
    - fold s in Hc, Hi. unfold hung_up, line_view, sent. now rewrite Hr, Hc, Hi. }
  unfold hung_up, line_view in H. injection H as Hw Hr' _ Hi'.
  split; [exact Hw|]. split; [exact Hr'|].
  unfold enabled. rewrite Hi'. split; intros; now rewrite andb_false_r.
Qed.

Lemma nothing_is_sent_after_the_close_witness :
  let s := run ge_num (to_session ++ [SocketClose 1006]) initial in
  let more := [VisibilityChange true; ClickEnd true; Second] in
  readyState (world s) = CLOSED
  /\ sent (run ge_num more s) = sent s
  /\ readyState (world (run ge_num more s)) = CLOSED
  /\ (forall env, enabled (ClickMic env) (run ge_num more s) = false)
  /\ (forall confirmed, enabled (ClickEnd confirmed) (run ge_num more s) = false).
Proof.
  split; [reflexivity|].
  apply (@nothing_is_sent_after_the_close ge_num (to_session ++ [SocketClose 1006])
           [VisibilityChange true; ClickEnd true; Second]).
  reflexivity.
Defined.

(** X11.  In every run of the page a protocol socket exists only once the
    setup is complete and both the job and the resume are known. *)
Theorem socket_needs_a_complete_setup : forall js_ge events,
  let s := run js_ge events initial in
  is_some (ws (conn (cells s))) = true ->
  setupComplete (setup (cells s)) = true
  /\ nonempty (jobId (conn (cells s))) = true
  /\ nonempty (resumeId (conn (cells s))) = true.
Proof.
  intros js_ge events s Hs.
  pose proof (run_keeps_stopped js_ge events) as T. fold s in T.
  unfold track_stopped, share_view, connectable in T. rewrite Hs in T.
  apply andb_true_iff in T as [_ T].
  apply andb_true_iff in T as [T H3]. apply andb_true_iff in T as [H1 H2].
  auto.
Qed.

Lemma socket_needs_a_complete_setup_witness :
  is_some (ws (conn (cells in_session))) = true
  /\ setupComplete (setup (cells in_session)) = true
  /\ nonempty (jobId (conn (cells in_session))) = true
  /\ nonempty (resumeId (conn (cells in_session))) = true.
Proof.
  split; [reflexivity|].
  apply (@socket_needs_a_complete_setup ge_num to_session). reflexivity.
Defined.

(** ** Fullscreen violations *)

Lemma send_two_strikes : forall sock frame,
  is_fullscreen_end frame = false ->
  maintains (fun s => two_strikes (strikes_view s)) (send sock frame).
Proof.
  intros sock frame Hf s H. unfold strikes_view, send, bind, gets in *.
  simpl. destruct (readyState (world s)); simpl; try exact H.
  unfold count_fullscreen_end in *. rewrite filter_app, length_app. simpl.
  rewrite Hf. simpl. now rewrite Nat.add_0_r.
Qed.

Lemma send_opt_two_strikes : forall w frame,
  is_fullscreen_end frame = false ->
  maintains (fun s => two_strikes (strikes_view s)) (send_opt w frame).
Proof.
  intros [sock|] frame Hf; [now apply send_two_strikes | apply maintains_ret].
Qed.

Lemma ended_two_strikes :
  maintains (fun s => two_strikes (strikes_view s)) (setInterviewEndedByProctor true).
Proof.
  intros s H. unfold two_strikes, strikes_view in *. simpl in *.
  destruct H as (H1 & H2 & _). repeat split; try lia; discriminate.
Qed.

Ltac strikes :=
  idtac;
  lazymatch goal with
  | |- maintains _ (send _ _) => apply send_two_strikes; reflexivity
  | |- maintains _ (send_opt _ _) => apply send_opt_two_strikes; reflexivity
  | |- maintains _ (setInterviewEndedByProctor true) => apply ended_two_strikes
  end.

Lemma handleFullscreenChange_two_strikes : forall in_fullscreen now,
  maintains (fun s => two_strikes (strikes_view s))
    (handleFullscreenChange in_fullscreen now).
Proof.
  intros in_fullscreen now s H. unfold two_strikes, strikes_view in *.
  destruct_session s. simpl in H. destruct H as (H1 & H2 & H3).
  destruct in_fullscreen, sc, ended;
    try (cbv -[Z.le Z.add Nat.le count_fullscreen_end]; auto; fail).
  specialize (H3 eq_refl). destruct H3 as [H3 H4].
  assert (E : fsx = 0%Z \/ fsx = 1%Z) by lia.
  destruct E; subst fsx;
    destruct sock as [[]|], rs;
    cbv -[Z.le Nat.le count_fullscreen_end app];
    unfold count_fullscreen_end in *; rewrite ?filter_app, ?length_app, ?H4;
    simpl; repeat split; try lia; try discriminate; auto.
Qed.

Lemma step_two_strikes : forall js_ge s e,
  two_strikes (strikes_view s) -> two_strikes (strikes_view (step js_ge s e)).
Proof.
  intros js_ge s e H. rewrite step_unfold.
  destruct (enabled e s); [|exact H].
  assert (C : maintains (fun s => two_strikes (strikes_view s)) (commit (cells s)))
    by (unfold_to_socket; maintain strikes).
  apply C. clear C.
  assert (K : forall e',
             match e' with FullscreenChange _ _ => false | _ => true end = true ->
             maintains (fun s => two_strikes (strikes_view s)) (handle js_ge e'))
    by (intros e' He; destruct e'; try discriminate; unfold_to_socket;
        maintain strikes).
  destruct e; try (apply K; [reflexivity | exact H]).
  apply handleFullscreenChange_two_strikes, H.
Qed.

(** X12.  In every run of the page at most two exits from fullscreen are
    counted, and at most one end-of-session frame for fullscreen
    violations is sent; as long as the session is not marked ended, at
    most one exit has been counted and no such frame has been sent. *)
Theorem fullscreen_exits_end_the_session_once : forall js_ge events,
  let s := run js_ge events initial in
  (0 <= fullscreenExitCount (proctor (cells s)) <= 2)%Z
  /\ (count_fullscreen_end (sent s) <= 1)%nat
  /\ (interviewEndedByProctor (proctor (cells s)) = false ->
      (fullscreenExitCount (proctor (cells s)) <= 1)%Z
      /\ count_fullscreen_end (sent s) = 0%nat).
Proof.
  intros js_ge events.
  apply run_invariant with (P := fun s => two_strikes (strikes_view s)).
  - intros s e. apply step_two_strikes.
  - cbv -[Z.le Nat.le]. repeat split; try lia; auto.
Qed.

Lemma fullscreen_exits_witness :
  let s := run ge_num (to_session ++ [FullscreenChange false []]) initial in
  interviewEndedByProctor (proctor (cells s)) = false
  /\ (fullscreenExitCount (proctor (cells s)) <= 1)%Z
  /\ count_fullscreen_end (sent s) = 0%nat.
Proof.
  split; [reflexivity|].
  apply (proj2 (proj2 (@fullscreen_exits_end_the_session_once ge_num
                         (to_session ++ [FullscreenChange false []])))).
  reflexivity.
Defined.

(** ** A session that is marked ended *)

Lemma ended_stays : maintains (fun s => is_set (ended_flag s))
                      (setInterviewEndedByProctor true).
Proof. intros s _. reflexivity. Qed.

Ltac ended_leaf :=
  idtac;
  lazymatch goal with
  | |- maintains _ (setInterviewEndedByProctor true) => apply ended_stays
  end.

Lemma step_keeps_ended : forall js_ge s e,
  ended_flag s = true -> ended_flag (step js_ge s e) = true.
Proof.
  intros js_ge s e H. rewrite step_unfold. destruct (enabled e s); [|exact H].
  assert (C : maintains (fun s => is_set (ended_flag s)) (commit (cells s)))
    by (unfold_handlers; maintain ended_leaf).
  apply C. clear C.
  assert (K : maintains (fun s => is_set (ended_flag s)) (handle js_ge e))
    by (destruct e; unfold_handlers; maintain ended_leaf).
  apply K, H.
Qed.

(** X13.  A session that is marked ended stays so, whatever happens next:
    the timer never ticks again, and the microphone and end buttons stay
    disabled. *)
Theorem an_ended_session_stays_ended :
  forall js_ge (events : list Event) (s : Session),
    interviewEndedByProctor (proctor (cells s)) = true ->
    let s' := run js_ge events s in
    interviewEndedByProctor (proctor (cells s')) = true
    /\ enabled Second s' = false
    /\ (forall env, enabled (ClickMic env) s' = false)
    /\ (forall confirmed, enabled (ClickEnd confirmed) s' = false).
Proof.
  intros js_ge events s H s'.
  assert (E : ended_flag s' = true).
  { apply run_invariant with (P := fun s => ended_flag s = true).
    - intros x e. apply step_keeps_ended.
    - exact H. }
  unfold ended_flag in E. split; [exact E|].
  unfold enabled, timer_pending, timer_running, over. rewrite E.
  rewrite !orb_true_r. simpl. rewrite !andb_false_r. simpl.
  repeat split; reflexivity.
Qed.

Lemma an_ended_session_stays_ended_witness :
  let s := run ge_num (to_session ++ repeat (VisibilityChange true) 3) initial in
  let s' := run ge_num [SocketMessage no_provider (Some mystery_frame);
                        FullscreenChange true []; UtteranceSettled] s in
  interviewEndedByProctor (proctor (cells s)) = true
  /\ interviewEndedByProctor (proctor (cells s')) = true
  /\ enabled Second s' = false
  /\ (forall env, enabled (ClickMic env) s' = false)
  /\ (forall confirmed, enabled (ClickEnd confirmed) s' = false).
Proof.
  split; [reflexivity|].
  apply (@an_ended_session_stays_ended ge_num
           [SocketMessage no_provider (Some mystery_frame);
            FullscreenChange true []; UtteranceSettled]
           (run ge_num (to_session ++ repeat (VisibilityChange true) 3) initial)).
  reflexivity.
Defined.

(** ** The frame that closes the interview *)




(** ** The status that the message handler captured *)

Lemma exec_commit : forall before s,
  let s1 := exec (rerender before) s in
  exec (commit before) s
  = exec timer_effect
      (if connectable (cells s1) && negb (connectable before)
       then exec (rerender (cells s1)) (exec connect s1)
       else s1).
Proof.
  intros before s s1. unfold commit.
  assert (T : forall seen, total (rerender seen))
    by (intros seen; unfold rerender, release, close_opt, cleanupVoice; totality).
  rewrite exec_then by apply T. fold s1. rewrite exec_look.
  destruct (connectable (cells s1) && negb (connectable before)).
  - assert (Tc : total (when true (connect ;; rerender (cells s1)))).
    { unfold when. apply total_bind; [unfold connect; totality|].
      intros _. apply T. }
    rewrite exec_then by exact Tc. unfold when.
    rewrite exec_then by (unfold connect; totality). reflexivity.
  - unfold when. rewrite exec_then by apply total_ret. reflexivity.
Qed.

Lemma connect_captures : forall s,
  connectable (cells s) = true ->
  closure_view (exec connect s)
  = (true, status (conn (cells s)), Some (status (conn (cells s)))).
Proof.
  intros s H. unfold connectable in H. destruct_session s. simpl in H.
  destruct sc; [|discriminate].
  destruct job as [|j0 job]; [discriminate|].
  destruct res as [|r0 res]; [discriminate|]. reflexivity.
Qed.

Lemma handle_keeps_closure_view : forall js_ge e,
  match e with SocketMessage _ _ => false | _ => true end = true ->
  preserves closure_view (handle js_ge e).
Proof.
  intros js_ge e H. destruct e; try discriminate; clear H; unfold_handlers; preserve.
Qed.

Lemma onmessage_keeps_the_closure : forall js_ge env parsed,
  preserves (fun s => (is_some (ws (conn (cells s))),
                       option_map message_status (onmessage_closure (world s))))
    (handle js_ge (SocketMessage env parsed)).
Proof. intros. unfold_handlers. preserve. Qed.

Lemma step_holds_first_status : forall js_ge s e,
  track_stopped (share_view s) = true ->
  holds_first_status (closure_view s) ->
  holds_first_status (closure_view (step js_ge s e)).
Proof.
  intros js_ge s e T H. rewrite step_unfold.
  destruct (enabled e s) eqn:En; [|exact H].
  assert (R : forall seen, preserves closure_view (rerender seen))
    by (intros seen; unfold rerender, release, close_opt, cleanupVoice; preserve).
  assert (V : preserves closure_view timer_effect)
    by (unfold timer_effect, send_opt, send; preserve).
  unfold preserves in R, V.
  set (sh := exec (handle js_ge e) s).
  assert (Hh : holds_first_status (closure_view sh)
               /\ ws (conn (cells sh)) = ws (conn (cells s))).
  { split; [|apply handle_keeps_socket].
    destruct e;
      try (unfold sh, exec; rewrite handle_keeps_closure_view by reflexivity;
           exact H).
    (* a frame arrives: the page holds the socket *)
    unfold enabled in En. apply andb_true_iff in En as [En _].
    pose proof (onmessage_keeps_the_closure js_ge env parsed s) as K.
    fold (exec (handle js_ge (SocketMessage env parsed)) s) in K.
    fold sh in K. injection K as K1 K2.
    unfold holds_first_status, closure_view in *.
    rewrite K1, K2, En. destruct H as [_ H]. split; [discriminate | exact H]. }
  destruct Hh as [Hq Hw].
  rewrite exec_commit.
  set (s1 := exec (rerender (cells s)) sh).
  assert (E1 : closure_view s1 = closure_view sh) by apply R.
  unfold exec at 1. rewrite V.
  destruct (connectable (cells s1) && negb (connectable (cells s))) eqn:B.
  - apply andb_true_iff in B as [B1 B2]. apply negb_true_iff in B2.
    unfold exec at 1. rewrite R. rewrite connect_captures by exact B1.
    assert (W : is_some (ws (conn (cells s))) = false).
    { unfold track_stopped, share_view in T.
      destruct (is_some (ws (conn (cells s)))); [|reflexivity].
      rewrite B2, andb_false_r in T. discriminate. }
    rewrite <- E1 in Hq. unfold holds_first_status, closure_view in *.
    destruct Hq as [Hq _].
    assert (W1 : is_some (ws (conn (cells s1))) = false).
    { injection E1 as E1 _ _. now rewrite E1, Hw. }
    rewrite (Hq W1). split; [discriminate | now right].
  - now rewrite E1.
Qed.

(** X15.  In every run of the page, the status that [socket.onmessage]
    holds is the status of the first render, whatever frames have arrived
    since the socket was created: a frame that gives no [max_questions]
    is recorded with a maximum of 8, also after a frame that gave
    another maximum. *)
Theorem onmessage_holds_the_first_status :
  forall js_ge (events : list Event) (cl : MessageClosure),
    onmessage_closure (world (run js_ge events initial)) = Some cl ->
    message_status cl
    = {| question_count := Some (JNum 0); max_questions := Some (JNum 8);
         is_complete := false |}
    /\ forall fields,
         assoc (u16 "max_questions") fields = None ->
         max_questions (question_status js_ge cl fields) = Some (JNum 8).
Proof.
  intros js_ge events cl Hcl.
  assert (H : track_stopped (share_view (run js_ge events initial)) = true
              /\ holds_first_status (closure_view (run js_ge events initial))).
  { apply run_invariant
      with (P := fun s => track_stopped (share_view s) = true
                          /\ holds_first_status (closure_view s)).
    - intros s e [T H]. split; [now apply step_keeps_stopped|].
      now apply step_holds_first_status.
    - split; [reflexivity|]. split; [reflexivity | now left]. }
  destruct H as [_ [_ H]]. unfold closure_view in H. rewrite Hcl in H. simpl in H.
  destruct H as [H|H]; [discriminate|]. injection H as H.
  split; [exact H|]. intros fields Hm.
  unfold question_status. simpl. rewrite Hm, H. reflexivity.
Qed.

Lemma onmessage_holds_the_first_status_witness :
  onmessage_closure (world in_session) = Some session_closure
  /\ message_status session_closure
     = {| question_count := Some (JNum 0); max_questions := Some (JNum 8);
          is_complete := false |}
  /\ forall fields,
       assoc (u16 "max_questions") fields = None ->
       max_questions (question_status ge_num session_closure fields) = Some (JNum 8).
Proof.
  split; [reflexivity|].
  apply (@onmessage_holds_the_first_status ge_num to_session session_closure).
  reflexivity.
Defined.

(** ** The voice of the interviewer *)

Lemma handle_keeps_speaker : forall js_ge e,
  match e with
  | VoicesLoaded | ClickVoice _ | ClickTestVoice _ | TestTimerFires _ => false
  | _ => true
  end = true ->
  preserves speaker_view (handle js_ge e).
Proof.
  intros js_ge e H. destruct e; try discriminate; clear H; unfold_handlers; preserve.
Qed.

Lemma connect_captures_the_voice : forall s,
  connectable (cells s) = true ->
  speaker_view (exec connect s)
  = (selectedVoice (voice (cells s)), test_timers (world s),
     Some (selectedVoice (voice (cells s)))).
Proof.
  intros s H. unfold connectable in H. destruct_session s. simpl in H.
  destruct sc; [|discriminate].
  destruct job as [|j0 job]; [discriminate|].
  destruct res as [|r0 res]; [discriminate|]. reflexivity.
Qed.

Lemma commit_keeps_the_speaker : forall before s,
  interview_speaker (speaker_view s) ->
  interview_speaker (speaker_view (exec (commit before) s)).
Proof.
  intros before s H.
  assert (R : forall seen, preserves speaker_view (rerender seen))
    by (intros seen; unfold rerender, release, close_opt, cleanupVoice; preserve).
  assert (V : preserves speaker_view timer_effect)
    by (unfold timer_effect, send_opt, send; preserve).
  unfold preserves in R, V.
  rewrite exec_commit. unfold exec at 1. rewrite V.
  set (s1 := exec (rerender before) s).
  assert (E1 : speaker_view s1 = speaker_view s) by apply R.
  destruct (connectable (cells s1) && negb (connectable before)) eqn:B.
  - apply andb_true_iff in B as [B1 _].
    unfold exec at 1. rewrite R, connect_captures_the_voice by exact B1.
    rewrite <- E1 in H. unfold interview_speaker, speaker_view in *.
    destruct H as (Hs & Ht & _). auto.
  - now rewrite E1.
Qed.

Lemma step_keeps_the_speaker : forall js_ge s e,
  setup_reachable (setup_of s) = true ->
  interview_speaker (speaker_view s) ->
  interview_speaker (speaker_view (step js_ge s e)).
Proof.
  intros js_ge s e G H. rewrite step_unfold.
  destruct (enabled e s) eqn:En; [|exact H].
  apply commit_keeps_the_speaker.
  assert (NV : at_step (cells s) voice_selection = false).
  { unfold at_step, setup_reachable, setup_of in *.
    destruct (setupStep (setup (cells s))); try discriminate;
      now rewrite andb_false_r. }
  destruct e;
    try (unfold exec; rewrite handle_keeps_speaker by reflexivity; exact H).
  - (* the voices are loaded *)
    unfold interview_speaker, speaker_view in *. destruct H as (_ & Ht & Hc).
    split; [now right | split; assumption].
  - (* no voice button is shown *)
    simpl in En. congruence.
  - simpl in En. congruence.
  - (* no test is pending *)
    unfold interview_speaker, speaker_view in H. destruct H as (_ & Ht & _).
    simpl in En. rewrite Ht in En. discriminate.
Qed.

(** X16.  In every run of the page the selected voice is the interview
    voice that [loadVoices] selects, or none before the voices are
    loaded; no test of a voice is ever pending, and the voice that
    [socket.onmessage] speaks with is the interview voice or none. *)
Theorem the_interviewer_keeps_one_voice : forall js_ge events,
  let s := run js_ge events initial in
  is_interview_voice (selectedVoice (voice (cells s)))
  /\ test_timers (world s) = []
  /\ match onmessage_closure (world s) with
     | Some cl => is_interview_voice (message_selectedVoice cl)
     | None => True
     end.
Proof.
  intros js_ge events.
  assert (H : setup_reachable (setup_of (run js_ge events initial)) = true
              /\ interview_speaker (speaker_view (run js_ge events initial))).
  { apply run_invariant
      with (P := fun s => setup_reachable (setup_of s) = true
                          /\ interview_speaker (speaker_view s)).
    - intros s e [G H]. split; [now apply step_keeps_setup_reachable|].
      now apply step_keeps_the_speaker.
    - split; [reflexivity|]. split; [now left|]. split; [reflexivity | exact I]. }
  destruct H as [_ H]. unfold interview_speaker, speaker_view in H. simpl.
  destruct H as (Hs & Ht & Hc). split; [exact Hs|]. split; [exact Ht|].
  destruct (onmessage_closure (world (run js_ge events initial))); [exact Hc | exact I].
Qed.

(** ** The prompt to return to fullscreen *)

(** X17.  The button of the prompt never throws; it takes the prompt and
    the warning away whether or not the browser goes back to fullscreen,
    and it leaves the count of exits as it is.  When the browser refuses,
    the page shows that fullscreen is required; otherwise the error is
    as before. *)
Theorem return_to_fullscreen_dismisses_the_prompt :
  forall (env : FullscreenEnv) (s : Session),
    let s' := exec (return_to_fullscreen env) s in
    returns (return_to_fullscreen env) s = true
    /\ showFullscreenPrompt (proctor (cells s')) = false
    /\ fullscreenWarning (proctor (cells s')) = None
    /\ fullscreenExitCount (proctor (cells s')) = fullscreenExitCount (proctor (cells s))
    /\ shown_error s'
       = (if requestFullscreen_defined env && is_some (requestFullscreen_result env)
          then Some fullscreen_required else shown_error s)
    /\ sent s' = sent s.
Proof.
  intros [defined [e|]] s; destruct defined; repeat split; reflexivity.
Qed.

(** ** The format of the recording *)

(** X18.  The loop over the candidate formats gives the first one that
    the recorder supports: every candidate before it is unsupported.  It
    gives the empty string exactly when no candidate is supported
    (no candidate being the empty string). *)
Theorem first_supported_is_the_first :
  forall (supported : jsstring -> bool) (types : list jsstring),
    forallb nonempty types = true ->
    let t := first_supported supported types in
    if existsb supported types
    then exists before after,
           types = before ++ t :: after
           /\ supported t = true
           /\ forallb (fun u => negb (supported u)) before = true
           /\ nonempty t = true
    else t = [].
Proof.
  intros supported types. induction types as [|u r IH]; intros Hn; simpl.
  - reflexivity.
  - simpl in Hn. apply andb_true_iff in Hn as [Hu Hr].
    destruct (supported u) eqn:E; simpl.
    + exists [], r. repeat split; assumption.
    + specialize (IH Hr). simpl in IH.
      destruct (existsb supported r).
      * destruct IH as (before & after & H1 & H2 & H3 & H4).
        exists (u :: before), after. simpl. rewrite E, H3.
        repeat split; try assumption. now rewrite H1 at 1.
      * exact IH.
Qed.

Lemma first_supported_witness :
  let t := first_supported (isTypeSupported listen_ok) supportedTypes in
  forallb nonempty supportedTypes = true
  /\ exists before after,
       supportedTypes = before ++ t :: after
       /\ isTypeSupported listen_ok t = true
       /\ forallb (fun u => negb (isTypeSupported listen_ok u)) before = true
       /\ nonempty t = true.
Proof.
  split; [reflexivity|].
  apply (@first_supported_is_the_first (isTypeSupported listen_ok) supportedTypes).
  reflexivity.
Defined.

(** ** The socket closes *)

(** X19.  When the socket closes, the page is not connected any more and
    the microphone and end buttons are disabled.  A normal closure (code
    1000) leaves the error as it was; any other code shows "Connection
    lost. Please refresh.".  The timer is not touched: it goes on if it
    was running. *)
Theorem onclose_disconnects :
  forall (code : Z) (s : Session),
    let s' := exec (onclose code) s in
    isConnected (conn (cells s')) = false
    /\ shown_error s' = (if Z.eqb code 1000 then shown_error s
                         else Some connection_lost)
    /\ (forall env, enabled (ClickMic env) s' = false)
    /\ (forall confirmed, enabled (ClickEnd confirmed) s' = false)
    /\ enabled Second s' = enabled Second s
    /\ sent s' = sent s.
Proof.
  intros code s. destruct_session s.
  unfold onclose, exec, bind, when. simpl.
  destruct (Z.eqb code 1000); simpl; repeat split; intros;
    rewrite ?andb_false_r; reflexivity.
Qed.

(** ** The answers that are sent *)

Lemma str_eqb_refl : forall s, str_eqb s s = true.
Proof. induction s as [|c r IH]; simpl; [reflexivity|]. now rewrite N.eqb_refl. Qed.

Lemma trimStart_of_solid : forall s, starts_solid s = true -> trimStart s = s.
Proof.
  intros [|c r] H; [discriminate|]. simpl in *.
  apply negb_true_iff in H. now rewrite H.
Qed.

Lemma trimStart_twice : forall s, trimStart (trimStart s) = trimStart s.
Proof.
  intros s. destruct (trimStart_solid s) as [H|H].
  - now rewrite H.
  - now apply trimStart_of_solid.
Qed.

Lemma trim_twice : forall s, trim (trim s) = trim s.
Proof.
  intros s. unfold trim.
  assert (H : trimStart (trimEnd (trimStart s)) = trimEnd (trimStart s)).
  { destruct (trimStart_solid s) as [E|E].
    - rewrite E. reflexivity.
    - apply trimStart_of_solid, trimEnd_solid, E. }
  rewrite H. unfold trimEnd. now rewrite rev_involutive, trimStart_twice.
Qed.

Lemma send_good : forall sock frame,
  good_frame frame = true ->
  maintains (fun s => good_wire (sent s)) (send sock frame).
Proof.
  intros sock frame Hf s H. unfold good_wire, sent, send, bind, gets in *.
  simpl. destruct (readyState (world s)); simpl; try exact H.
  rewrite forallb_app, H. simpl. now rewrite Hf.
Qed.

Lemma send_opt_good : forall w frame,
  good_frame frame = true ->
  maintains (fun s => good_wire (sent s)) (send_opt w frame).
Proof. intros [sock|] frame Hf; [now apply send_good | apply maintains_ret]. Qed.

Ltac good :=
  idtac;
  lazymatch goal with
  | |- maintains _ (send _ _) => apply send_good; reflexivity
  | |- maintains _ (send_opt _ _) => apply send_opt_good; reflexivity
  end.

Lemma stopListening_good : maintains (fun s => good_wire (sent s)) stopListening.
Proof.
  intros s H. destruct (stopListening_spec s) as [Hs _].
  fold (exec stopListening s). unfold good_wire in *. rewrite Hs.
  destruct (nonempty (trim (bufferRef (voice (cells s))))) eqn:N; [|exact H].
  destruct (socket_open s); [|exact H]. simpl.
  rewrite forallb_app, H. simpl.
  unfold good_frame, answer_frame, obj. simpl.
  now rewrite N, trim_twice, str_eqb_refl.
Qed.

Lemma step_good : forall js_ge s e,
  good_wire (sent s) -> good_wire (sent (step js_ge s e)).
Proof.
  intros js_ge s e H. rewrite step_unfold. destruct (enabled e s); [|exact H].
  assert (C : maintains (fun s => good_wire (sent s)) (commit (cells s)))
    by (unfold_to_socket; maintain good).
  apply C. clear C.
  assert (K : forall e',
             match e' with ClickMic _ => false | _ => true end = true ->
             maintains (fun s => good_wire (sent s)) (handle js_ge e'))
    by (intros e' He; destruct e'; try discriminate; unfold_to_socket;
        maintain good).
  destruct e; try (apply K; [reflexivity | exact H]).
  unfold handle, exec, bind, look, gets. simpl.
  destruct (isListening (voice (cells s))).
  - apply stopListening_good, H.
  - unfold good_wire. pose proof (startListening_sent env s) as P.
    simpl in P. now rewrite P.
Qed.

(** X20.  In every run of the page, every frame that is sent is a JSON
    object, and an [answer] that it carries is a string that is not empty
    and has no white space around it: the page never sends an empty
    answer or one made of blanks. *)
Theorem no_empty_answer_is_ever_sent : forall js_ge events frame,
  In frame (sent (run js_ge events initial)) ->
  exists fields,
    frame = JObj fields
    /\ match assoc (u16 "answer") fields with
       | None => True
       | Some (JStr t) => nonempty t = true /\ trim t = t
       | Some _ => False
       end.
Proof.
  intros js_ge events frame Hin.
  assert (H : good_wire (sent (run js_ge events initial))).
  { apply run_invariant with (P := fun s => good_wire (sent s)).
    - intros s e. apply step_good.
    - reflexivity. }
  unfold good_wire in H. rewrite forallb_forall in H. specialize (H frame Hin).
  destruct frame as [| | | | |fields]; try discriminate.
  exists fields. split; [reflexivity|]. simpl in H.
  destruct (assoc (u16 "answer") fields) as [[| | |t| |]|]; try discriminate;
    [|exact I].
  apply andb_true_iff in H as [H1 H2]. split; [exact H1|].
  clear H1. revert H2. generalize (trim t). intros a. revert t.
  induction a as [|x a IH]; intros [|y t] E; try discriminate; [reflexivity|].
  simpl in E. apply andb_true_iff in E as [E1 E2].
  apply N.eqb_eq in E1. subst. f_equal. now apply IH.
Qed.

Lemma no_empty_answer_witness :
  let s := run ge_num (to_session ++ [ClickMic listen_ok; Transcript (final_ " hello ");
                                      ClickMic listen_ok]) initial in
  In (answer_frame (u16 "hello")) (sent s)
  /\ exists fields,
       answer_frame (u16 "hello") = JObj fields
       /\ match assoc (u16 "answer") fields with
          | None => True
          | Some (JStr t) => nonempty t = true /\ trim t = t
          | Some _ => False
          end.
Proof.
  assert (H : In (answer_frame (u16 "hello"))
                (sent (run ge_num (to_session ++ [ClickMic listen_ok;
                                                  Transcript (final_ " hello ");
                                                  ClickMic listen_ok]) initial)))
    by (vm_compute; auto).
  split; [exact H|].
  exact (@no_empty_answer_is_ever_sent ge_num _ _ H).
Defined.

(** ** The step of the voice selection *)

(** X21.  In every run of the page the panel of the voice selection is
    never shown: the button that leads to it is never enabled, and neither
    a voice nor a test of a voice can be clicked. *)
Theorem voice_selection_is_never_shown : forall js_ge events,
  let s := run js_ge events initial in
  at_step (cells s) voice_selection = false
  /\ enabled ClickContinueToVoice s = false
  /\ enabled ClickContinueToScreenShare s = false
  /\ (forall v, enabled (ClickVoice v) s = false)
  /\ (forall v, enabled (ClickTestVoice v) s = false).
Proof.
  intros js_ge events s.
  assert (H : setup_reachable (setup_of s) = true).
  { apply run_invariant with (P := fun s => setup_reachable (setup_of s) = true).
    - intros x e. apply step_keeps_setup_reachable.
    - reflexivity. }
  unfold setup_reachable, setup_of in H.
  unfold enabled, at_step, both_granted.
  destruct (setupStep (setup (cells s))); try discriminate;
    rewrite ?andb_false_r; simpl; rewrite ?andb_false_r;
    repeat split; try reflexivity.
  apply negb_true_iff in H. rewrite H. now rewrite !andb_false_r.
Qed.

(** ** The screen track and the socket *)

Lemma screen_track_is_stopped_witness :
  is_some (ws (conn (cells in_session))) = true
  /\ enabled ScreenTrackEnded in_session = false.
Proof.
  split; [reflexivity|].
  apply (@screen_track_is_stopped_with_the_socket ge_num to_session). reflexivity.
Defined.
